(** * smc-hub/auth.ts: passport login, remember-me cookies, credential hashing

    A shallow embedding of [src/smc-hub/auth.ts]:
    - [generate_hash] (lines 112-129) and the remember-me cookie format;
    - the steps of [PassportManager.passport_login] (lines 588-897), written
      in a state-and-exception monad over the mutable [locals] object, the
      response cookie jar and the database.

    JavaScript values are modelled as follows.  An absent value
    ([undefined] or [null]) is [None]; a string is [string]; truthiness of
    an optional string is [truthy].  A thrown [Error] is a constructor of
    [Err], one per [throw] site, and [err_text] gives the text that the
    template literal [`${err}`] produces for it. *)

From Stdlib Require Import ZArith Ascii DecimalString.
From stdpp Require Import gmap strings list.

Open Scope string_scope.
Open Scope Z_scope.

(** ** Strings *)

Definition dollar : ascii := "$"%char.

(** [String.prototype.split] with a one-character separator. *)
Fixpoint split (sep : ascii) (s : string) : list string :=
  match s with
  | EmptyString => [EmptyString]
  | String c s' =>
      if Ascii.eqb c sep then EmptyString :: split sep s'
      else match split sep s' with
           | f :: fs => String c f :: fs
           | [] => [String c EmptyString]
           end
  end.

(** [Array.prototype.join]. *)
Fixpoint join (sep : string) (l : list string) : string :=
  match l with
  | [] => ""
  | [x] => x
  | x :: rest => x +:+ sep +:+ join sep rest
  end.

(** Occurrences of a character, used to state which fields survive a
    round trip through [join] and [split]. *)
Fixpoint occurrences (c : ascii) (s : string) : nat :=
  match s with
  | EmptyString => O
  | String d s' => (if Ascii.eqb d c then 1 else 0) + occurrences c s'
  end%nat.

Definition has_char (c : ascii) (s : string) : bool :=
  negb (Nat.eqb (occurrences c s) 0).

(** [x[i]] on an array of strings, as [join] sees it: an index out of
    range reads [undefined], which [join] prints as the empty string. *)
Definition at_index (x : list string) (i : nat) : string := nth i x "".

(** [`${n}`] for an integer [n]. *)
Definition string_of_Z (z : Z) : string := NilZero.string_of_int (Z.to_int z).

(** [`${v}`] for an optional string. *)
Definition show (v : option string) : string :=
  match v with Some s => s | None => "undefined" end.

(** [!!v] for an optional string. *)
Definition truthy (v : option string) : bool :=
  match v with
  | Some s => negb (String.eqb s "")
  | None => false
  end.

(** ASCII range of [String.prototype.toLowerCase]. *)
Definition lower_char (c : ascii) : ascii :=
  let n := nat_of_ascii c in
  if (Nat.leb 65 n && Nat.leb n 90)%bool then ascii_of_nat (n + 32) else c.

Fixpoint toLowerCase (s : string) : string :=
  match s with
  | EmptyString => EmptyString
  | String c s' => String (lower_char c) (toLowerCase s')
  end.

(** ** Errors and results *)

Inductive Err : Type :=
  | ErrUndefinedArguments (algorithm salt : option string) (* line 115 *)
  | ErrCrypto (msg : string)            (* thrown inside crypto.createHmac *)
  | ErrBadlyFormattedCookie             (* line 623 *)
  | ErrNoValidRememberMe                (* line 643 *)
  | ErrPassportConflict (strategy : string)           (* line 683 *)
  | ErrCheckEmailNoAccount              (* line 729 *)
  | ErrEmailExists (email strategy : string)          (* line 736 *)
  | ErrAccountIdNull                    (* line 846 *)
  | ErrBanned (account_id email_address : option string) (help : string)
                                         (* line 892 *)
  | ErrOptsDatabaseUndefined            (* line 141, a TypeError *)
  | ErrDb (e : string).                 (* a database callback's err *)

Inductive Res (A : Type) : Type :=
  | Ok (a : A)
  | Throw (e : Err).
Arguments Ok {A} a.
Arguments Throw {A} e.

Definition err_message (e : Err) : string :=
  match e with
  | ErrUndefinedArguments a s =>
      "undefined arguments: algorithm='" +:+ show a +:+ "' salt='"
        +:+ show s +:+ "'"
  | ErrCrypto m => m
  | ErrBadlyFormattedCookie => "badly formatted remember_me cookie"
  | ErrNoValidRememberMe => "no valid remember_me token"
  | ErrPassportConflict st =>
      "Your " +:+ st +:+ " account is already attached to another CoCalc account.  First sign into that account and unlink "
        +:+ st +:+ " in account settings if you want to instead associate it with this account."
  | ErrCheckEmailNoAccount => "check_email: no _account_id"
  | ErrEmailExists em st =>
      "There is already an account with email address " +:+ em
        +:+ "; please sign in using that email account, then link "
        +:+ st +:+ " to it in account settings."
  | ErrAccountIdNull => "locals.account_id is null"
  | ErrBanned a em help =>
      "User (account_id=" +:+ show a +:+ ", email_address=" +:+ show em
        +:+ ") is BANNED. If this is a mistake, please contact "
        +:+ help +:+ "."
  | ErrOptsDatabaseUndefined =>
      "Cannot read property 'create_account' of undefined"
  | ErrDb e => e
  end.

(** [`${err}`]: an [Error] object prints as ["Error: " + message], a
    [TypeError] as ["TypeError: " + message] (the wording of its message
    is the engine's; this is the one of the Node versions of the time);
    the value a database callback passes prints as it is. *)
Definition err_text (e : Err) : string :=
  match e with
  | ErrDb m => m
  | ErrOptsDatabaseUndefined => "TypeError: " +:+ err_message e
  | _ => "Error: " +:+ err_message e
  end.

(** ** The runtime the module imports

    [crypto], [uuid], [password-hash]'s salt generator and the constant
    [HELP_EMAIL] of [smc-util/theme] are not part of this module. *)

Record Runtime : Type := {
  (** [crypto.createHmac(algorithm, key).update(data).digest("hex")];
      [inl] carries the message of the error it throws. *)
  createHmac : string -> string -> string -> string + string;
  (** the numeric value of a string where it is an integer; [None] is
      NaN.  A string that reads as a fraction or as an infinity has no
      value here: on an infinite bound the loop of [generate_hash] does
      not end, and the statements below fix the value of the strings
      they speak of. *)
  to_number : string -> option Z;
  (** [uuid.v4()], as a function of the number of values drawn so far *)
  uuid_v4 : nat -> string;
  (** the random salt of [password_hash_library.generate] *)
  fresh_salt : nat -> string;
  HELP_EMAIL : string
}.

(** ** Password hashing (lines 105-138) *)

Definition HASH_ALGORITHM : string := "sha512".
Definition HASH_ITERATIONS : Z := 1000.

(** The [iterations] argument: a number, or, in
    [check_remember_me_cookie], the third field of the cookie. *)
Inductive Iterations : Type :=
  | INum (n : Z)
  | IStr (s : string).

(** [iterations || 1] *)
Definition or_one (it : Iterations) : Iterations :=
  match it with
  | INum 0 => INum 1
  | IStr "" => INum 1
  | _ => it
  end.

Definition show_iterations (it : Iterations) : string :=
  match it with
  | INum n => string_of_Z n
  | IStr s => s
  end.

Section Hashing.
Context (rt : Runtime).

Definition number_of (it : Iterations) : option Z :=
  match it with
  | INum n => Some n
  | IStr s => to_number rt s
  end.

(** [a <= b] and [a >= b] where [b] may be NaN *)
Definition js_le (a : Z) (b : option Z) : bool :=
  match b with Some b => a <=? b | None => false end.
Definition js_ge (a : Z) (b : option Z) : bool :=
  match b with Some b => a >=? b | None => false end.

(** The [for] loop of lines 121-127, from counter [i].  [fuel] bounds
    the number of rounds; [generate_hash] passes [loop_bound], which
    [for_rounds_stable] shows is never exhausted. *)
Fixpoint for_rounds (fuel : nat) (algorithm salt : string) (asc : bool)
    (e : option Z) (i : Z) (hash : string) : Res string :=
  match fuel with
  | O => Ok hash
  | S fuel' =>
      if (if asc then js_le i e else js_ge i e) then
        match createHmac rt algorithm salt hash with
        | inl m => Throw (ErrCrypto m)
        | inr h =>
            for_rounds fuel' algorithm salt asc e
              (if asc then i + 1 else i - 1) h
        end
      else Ok hash
  end.

Definition loop_bound (e : option Z) : nat :=
  match e with
  | Some e => Z.to_nat (Z.abs (e - 1) + 1)
  | None => O
  end.

Definition generate_hash (algorithm salt : option string)
    (iterations : Iterations) (password : string) : Res string :=
  match algorithm, salt with
  | Some alg, Some slt =>
      let iterations := or_one iterations in
      let e := number_of iterations in
      let asc := js_le 1 e in
      match for_rounds (loop_bound e) alg slt asc e 1 password with
      | Ok hash =>
          Ok (alg +:+ "$" +:+ slt +:+ "$" +:+ show_iterations iterations
                +:+ "$" +:+ hash)
      | Throw err => Throw err
      end
  | _, _ => Throw (ErrUndefinedArguments algorithm salt)
  end.

(** [password_hash] (lines 131-138): the library draws a salt and applies
    the function that [generate_hash] is a copy of. *)
Definition password_hash (seed : nat) (password : string) : Res string :=
  generate_hash (Some HASH_ALGORITHM) (Some (fresh_salt rt seed))
    (INum HASH_ITERATIONS) password.

(** [n] rounds of the keyed hash, each on the previous round's output;
    [inl] is the message of the error the keyed hash throws. *)
Fixpoint hmac_rounds (n : nat) (algorithm salt hash : string)
    : string + string :=
  match n with
  | O => inr hash
  | S n' =>
      match createHmac rt algorithm salt hash with
      | inl m => inl m
      | inr h => hmac_rounds n' algorithm salt h
      end
  end.

(** What the caller of the keyed hash sees. *)
Definition crypto (r : string + string) : Res string :=
  match r with
  | inl m => Throw (ErrCrypto m)
  | inr h => Ok h
  end.
End Hashing.

(** The rounds the loop of [generate_hash] runs for the bound [e], counting
    from 1: up to [e], or down to it when [e] is below 1; none for NaN. *)
Definition rounds_of (e : option Z) : nat :=
  match e with
  | Some e => if 1 <=? e then Z.to_nat e else Z.to_nat (2 - e)
  | None => O
  end.

(** The rounds run and the number printed for an integer [iterations]:
    zero is taken as one; a negative number makes the loop count down from
    1 to it. *)
Definition rounds_run (n : Z) : nat :=
  if 0 <=? n then Z.to_nat (Z.max n 1) else Z.to_nat (2 - n).

Definition iterations_shown (n : Z) : Z :=
  if 0 <=? n then Z.max n 1 else n.

(** ** The database and the other collaborators of [passport_login]

    [this.database] (a [PostgreSQL] of [./postgres/types]), [api_key_action]
    of [./api/manage] and [sign_in.record_sign_in] are called through
    callbacks.  A call is an event indexed by the type of its reply; a
    database is a handler of these events over a store of its own. *)

Inductive Action : Type := regenerate | get.

Record SignedInMesg : Type := signed_in {
  sm_remember_me : bool;
  sm_hub : string;
  sm_account_id : string;
  sm_first_name : string;
  sm_last_name : string
}.

Record Settings : Type := { help_email : option string }.

Inductive dbE : Type -> Type :=
  | get_remember_me (hash : string) : dbE (option SignedInMesg)
  | passport_exists (strategy id : string) : dbE (option string)
  | create_passport (account_id strategy id profile : string)
      (email_address : option string) (first_name last_name : string)
      : dbE unit
  | account_exists (email_address : string) : dbE (option string)
  | create_account (first_name last_name : string)
      (email_address : option string) (strategy id profile : string)
      : dbE string
  | do_account_creation_actions (email_address account_id : string)
      : dbE unit
  | log_create_account (account_id first_name last_name : string)
      (email_address : option string) (created_by : string) : dbE unit
  | record_sign_in (ip_address : string) (remember_me : bool)
      (email_address account_id : option string) : dbE unit
  | api_key_action (account_id : option string) (action : Action)
      : dbE (option string)
  | is_banned_user (account_id : option string) : dbE bool
  | get_server_settings_cached : dbE Settings
  | save_remember_me (account_id hash : string) (value : SignedInMesg)
      (ttl : Z) : dbE unit.

(** A call as recorded in the trace. *)
Definition Call : Type := { T : Type & dbE T }.
Definition called {T} (e : dbE T) : Call := existT T e.

(** The reply of a call is the callback's [err] ([inl]) or its value. *)
Definition Database (S : Type) : Type :=
  forall T, dbE T -> S -> (string + T) * S.

(** ** The state of one [passport_login] *)

Module Opts.
(** [PassportLogin] after the normalisation of lines 553-584: names
    defaulted to the empty string, [id] a string, [emails] filtered and
    lower-cased. *)
Record t : Type := mk {
  strategy : string;
  profile : string;
  id : string;
  first_name : string;
  last_name : string;
  emails : option (list string);
  ip : string;
  base_url : string;
  host : string
}.

(** [opts.database]: [PassportLogin] (lines 151-164) has no such field,
    and neither the route handler (lines 483-490) nor the [defaults] of
    lines 507-519 give it one, so the read yields [undefined]. *)
Definition database {S : Type} (o : t) : option (Database S) := None.
End Opts.

Module Locals.
(** [PassportLoginLocals] (lines 309-321), without [dbg] and [cookies]. *)
Record t : Type := mk {
  account_id : option string;
  email_address : option string;
  new_account_created : bool;
  has_valid_remember_me : bool;
  target : string;
  remember_me_cookie : option string;
  get_api_key : option string;
  action : option Action;
  api_key : option string
}.

Definition set_account_id (v : option string) (l : t) : t :=
  mk v (email_address l) (new_account_created l) (has_valid_remember_me l)
     (target l) (remember_me_cookie l) (get_api_key l) (action l)
     (api_key l).
Definition set_email_address (v : option string) (l : t) : t :=
  mk (account_id l) v (new_account_created l) (has_valid_remember_me l)
     (target l) (remember_me_cookie l) (get_api_key l) (action l)
     (api_key l).
Definition set_new_account_created (v : bool) (l : t) : t :=
  mk (account_id l) (email_address l) v (has_valid_remember_me l)
     (target l) (remember_me_cookie l) (get_api_key l) (action l)
     (api_key l).
Definition set_has_valid_remember_me (v : bool) (l : t) : t :=
  mk (account_id l) (email_address l) (new_account_created l) v
     (target l) (remember_me_cookie l) (get_api_key l) (action l)
     (api_key l).
Definition set_target (v : string) (l : t) : t :=
  mk (account_id l) (email_address l) (new_account_created l)
     (has_valid_remember_me l) v (remember_me_cookie l) (get_api_key l)
     (action l) (api_key l).
Definition set_action (v : option Action) (l : t) : t :=
  mk (account_id l) (email_address l) (new_account_created l)
     (has_valid_remember_me l) (target l) (remember_me_cookie l)
     (get_api_key l) v (api_key l).
Definition set_api_key (v : option string) (l : t) : t :=
  mk (account_id l) (email_address l) (new_account_created l)
     (has_valid_remember_me l) (target l) (remember_me_cookie l)
     (get_api_key l) (action l) v.

(** The action of the first API-key call (lines 808-812). *)
Definition first_action (l : t) : Action :=
  if new_account_created l then regenerate else get.


(** The locals of a caller whom the cookie authenticates as [a]
    (lines 640-641). *)
Definition authenticated (a : string) (l : t) : t :=
  set_has_valid_remember_me true (set_account_id (Some a) l).
End Locals.

(** A [cookies.set(name, value, {maxAge})]; no value deletes the cookie. *)
Record SetCookie : Type := set_cookie {
  cookie_name : string;
  cookie_value : option string;
  cookie_maxAge : option Z
}.

Record State (S : Type) : Type := mkState {
  locals : Locals.t;
  store : S;
  draws : nat;              (* random values drawn so far *)
  jar : list SetCookie;     (* the response's cookies, oldest first *)
  trace : list Call         (* the calls made, oldest first *)
}.
Arguments mkState {S}.
Arguments locals {S}.
Arguments store {S}.
Arguments draws {S}.
Arguments jar {S}.
Arguments trace {S}.

(** ** The monad of an [async] method: state and exceptions *)

Definition M (S A : Type) : Type := State S -> Res A * State S.

Definition ret {S A} (a : A) : M S A := fun st => (Ok a, st).

Definition throw {S A} (e : Err) : M S A := fun st => (Throw e, st).

Definition bind {S A B} (m : M S A) (k : A -> M S B) : M S B :=
  fun st =>
    match m st with
    | (Ok a, st') => k a st'
    | (Throw e, st') => (Throw e, st')
    end.

Notation "x <- m ;; k" := (bind m (fun x => k))
  (at level 100, m at next level, right associativity).
Notation "m ;; k" := (bind m (fun _ => k))
  (at level 100, right associativity).

Definition get_locals {S} : M S Locals.t := fun st => (Ok (locals st), st).

(** The state after an assignment to fields of [locals]. *)
Definition with_locals {S} (f : Locals.t -> Locals.t) (st : State S)
    : State S :=
  mkState (f (locals st)) (store st) (draws st) (jar st) (trace st).

(** The state after the call [e] has left the store as [s']. *)
Definition answered {S T} (e : dbE T) (s' : S) (st : State S) : State S :=
  mkState (locals st) s' (draws st) (jar st) (trace st ++ [called e]).

Definition modify {S} (f : Locals.t -> Locals.t) : M S unit :=
  fun st => (Ok tt, with_locals f st).

Definition cookies_set {S} (c : SetCookie) : M S unit :=
  fun st =>
    (Ok tt,
     mkState (locals st) (store st) (draws st) (jar st ++ [c]) (trace st)).

(** One more random value is drawn; the result is its index. *)
Definition draw {S} : M S nat :=
  fun st =>
    (Ok (draws st),
     mkState (locals st) (store st) (Datatypes.S (draws st)) (jar st)
       (trace st)).

Definition lift {S A} (r : Res A) : M S A := fun st => (r, st).

(** ** Cookie names (lines 87-92) *)

Definition api_key_cookie_name (base_url : string) : string :=
  base_url +:+ "get_api_key".

Definition remember_me_cookie_name (base_url : string) (legacy : bool)
    : string :=
  base_url +:+ "remember_me" +:+ (if legacy then "-legacy" else "").

(** ** The remember-me cookie value *)

(** Lines 866-867: the first three fields of the stored hash, then the
    session id. *)
Definition remember_me_value (hash_session_id session_id : string)
    : string :=
  let x := split dollar hash_session_id in
  join "$" [at_index x 0; at_index x 1; at_index x 2; session_id].

(** The cookie value built from four fields. *)
Definition encode_remember_me (algorithm salt iterations secret : string)
    : string :=
  join "$" [algorithm; salt; iterations; secret].

(** Lines 620-624: the fields of a presented cookie. *)
Definition decode_remember_me (value : string) : Res (list string) :=
  let x := split dollar value in
  if negb (Nat.eqb (length x) 4) then Throw ErrBadlyFormattedCookie
  else Ok x.

(** What the client receives.  After a [try] block that completes, the
    method ends without touching the response. *)
Inductive Response : Type :=
  | Sent (body : string)
  | Redirect (target : string)
  | NoResponse.

(** ** The steps of [passport_login] *)

Section Calls.
Context {S : Type} (db : Database S).

(** [await callback2(f, args)]: the call is made; its [err] is thrown. *)
Definition callback2 {T} (e : dbE T) : M S T :=
  fun st =>
    let '(r, s') := db T e (store st) in
    match r with
    | inl err => (Throw (ErrDb err), answered e s' st)
    | inr v => (Ok v, answered e s' st)
    end.

(** A call whose promise is not awaited here: the reply is kept for the
    continuation that will receive it. *)
Definition start {T} (e : dbE T) : M S (string + T) :=
  fun st =>
    let '(r, s') := db T e (store st) in
    (Ok r, answered e s' st).

(** A call nobody waits for (lines 777 and 790): its reply is dropped. *)
Definition fire_and_forget {T} (e : dbE T) : M S unit :=
  _ <- start e ;; ret tt.
End Calls.

Section PassportManager.
Context (rt : Runtime) {S : Type} (db : Database S) (opts : Opts.t).

(** Lines 614-646. *)
Definition check_remember_me_cookie : M S unit :=
  l <- get_locals ;;
  if negb (truthy (Locals.remember_me_cookie l)) then ret tt
  else
    let value := default "" (Locals.remember_me_cookie l) in
    x <- lift (decode_remember_me value) ;;
    let hash :=
      match generate_hash rt (x !! 0%nat) (x !! 1%nat)
              (IStr (at_index x 2)) (at_index x 3) with
      | Ok h => Some h
      | Throw _ => None
      end in
    match hash with
    | Some hash =>
        signed_in_mesg <- callback2 db (get_remember_me hash) ;;
        match signed_in_mesg with
        | Some m =>
            modify (Locals.set_account_id (Some (sm_account_id m))) ;;
            modify (Locals.set_has_valid_remember_me true)
        | None => throw ErrNoValidRememberMe
        end
    | None => ret tt
    end.

(** [opts.emails != null ? opts.emails[0] : undefined] *)
Definition first_email : option string :=
  match Opts.emails opts with
  | Some es => head es
  | None => None
  end.

(** The two calls of [check_passport_exists], with their arguments
    (lines 656-659 and 669-677). *)
Definition the_passport : dbE (option string) :=
  passport_exists (Opts.strategy opts) (Opts.id opts).

Definition the_new_passport (account_id : string) : dbE unit :=
  create_passport account_id (Opts.strategy opts) (Opts.id opts)
    (Opts.profile opts) first_email (Opts.first_name opts)
    (Opts.last_name opts).

(** Lines 648-699. *)
Definition check_passport_exists : M S unit :=
  _account_id <- callback2 db the_passport ;;
  l <- get_locals ;;
  match negb (truthy _account_id) && Locals.has_valid_remember_me l,
        Locals.account_id l with
  | true, Some account_id => callback2 db (the_new_passport account_id)
  | _, _ =>
      if Locals.has_valid_remember_me l
         && negb (bool_decide (Locals.account_id l = _account_id))
      then throw (ErrPassportConflict (Opts.strategy opts))
      else if Locals.has_valid_remember_me l then ret tt
      else modify (Locals.set_account_id _account_id)
  end.

(** The body of one probe of [check_existing_emails] after its [await]
    (lines 722-739). *)
Definition probe_settled (email : string) (reply : string + option string)
    : M S unit :=
  match reply with
  | inl err => throw (ErrDb err)
  | inr _account_id =>
      l <- get_locals ;;
      if truthy (Locals.account_id l) then ret tt
      else if negb (truthy _account_id) then throw ErrCheckEmailNoAccount
      else
        modify (Locals.set_account_id _account_id) ;;
        modify (Locals.set_email_address (Some (toLowerCase email))) ;;
        throw (ErrEmailExists (toLowerCase email) (Opts.strategy opts))
  end.

(** The part of every probe before its [await] (lines 712-721), for all
    the emails in turn, as [opts.emails.map] runs them. *)
Fixpoint probes_started (emails : list string)
    : M S (list (string * (string + option string))) :=
  match emails with
  | [] => ret []
  | email :: rest =>
      l <- get_locals ;;
      if truthy (Locals.account_id l) then probes_started rest
      else
        r <- start db (account_exists (toLowerCase email)) ;;
        rs <- probes_started rest ;;
        ret ((email, r) :: rs)
  end.

(** Lines 701-744.  The probes are all started; [Promise.all] settles
    with the first probe that throws, and the first probe whose reply
    arrives always throws.  [winner] says which probe that is (taken
    modulo the number of probes): the order of the replies is the
    database's. *)
Definition check_existing_emails (winner : nat) : M S unit :=
  l <- get_locals ;;
  match Opts.emails opts with
  | Some emails =>
      if truthy (Locals.account_id l) then ret tt
      else
        replies <- probes_started emails ;;
        match replies !! (winner mod length replies)%nat with
        | Some (email, reply) => probe_settled email reply
        | None => ret tt
        end
  | None => ret tt
  end.

(** The call of the module's [create_account] (lines 141-148) and the
    log entry of lines 768-780, with their arguments. *)
Definition the_new_account (email_address : option string) : dbE string :=
  create_account (Opts.first_name opts) (Opts.last_name opts)
    email_address (Opts.strategy opts) (Opts.id opts) (Opts.profile opts).

Definition the_log_entry (account_id : string)
    (email_address : option string) : dbE unit :=
  log_create_account account_id (Opts.first_name opts)
    (Opts.last_name opts) email_address (Opts.ip opts).

(** The module's [create_account] (lines 140-149), called with the
    [opts] of [passport_login]: it takes the database from [opts], and
    reading a method of [undefined] throws a TypeError before any call
    is made. *)
Definition create_account_of_opts (email_address : option string)
    : M S string :=
  match Opts.database opts with
  | Some database => callback2 database (the_new_account email_address)
  | None => throw ErrOptsDatabaseUndefined
  end.

(** Lines 746-781. *)
Definition maybe_create_account : M S unit :=
  l <- get_locals ;;
  if truthy (Locals.account_id l) then ret tt
  else
    match Opts.emails opts with
    | Some es => modify (Locals.set_email_address (head es))
    | None => ret tt
    end ;;
    l <- get_locals ;;
    account_id <- create_account_of_opts (Locals.email_address l) ;;
    modify (Locals.set_account_id (Some account_id)) ;;
    modify (Locals.set_new_account_created true) ;;
    match Locals.email_address l with
    | Some email_address =>
        callback2 db (do_account_creation_actions email_address account_id)
    | None => ret tt
    end ;;
    fire_and_forget db (the_log_entry account_id (Locals.email_address l)).

(** Lines 783-799. *)
Definition maybe_record_sign_in : M S unit :=
  l <- get_locals ;;
  if negb (Locals.new_account_created l) then
    fire_and_forget db
      (record_sign_in (Opts.ip opts) (Locals.has_valid_remember_me l)
         (Locals.email_address l) (Locals.account_id l))
  else ret tt.

(** Lines 801-836. *)
Definition maybe_provision_api_key : M S unit :=
  l <- get_locals ;;
  if negb (truthy (Locals.get_api_key l)) then ret tt
  else
    let action := Locals.first_action l in
    modify (Locals.set_action (Some action)) ;;
    api_key <- callback2 db (api_key_action (Locals.account_id l) action) ;;
    modify (Locals.set_api_key api_key) ;;
    (if negb (truthy api_key) then
       api_key <- callback2 db
         (api_key_action (Locals.account_id l) regenerate) ;;
       modify (Locals.set_api_key api_key)
     else ret tt) ;;
    l <- get_locals ;;
    modify (Locals.set_target
              ("https://authenticated?api_key="
                 +:+ show (Locals.api_key l))).

(** [settings.help_email || HELP_EMAIL] (line 891) *)
Definition support_email (settings : Settings) : string :=
  if truthy (help_email settings) then default "" (help_email settings)
  else HELP_EMAIL rt.

(** Lines 883-897. *)
Definition is_user_banned (account_id email_address : option string)
    : M S bool :=
  is_banned <- callback2 db (is_banned_user account_id) ;;
  if is_banned : bool then
    settings <- callback2 db get_server_settings_cached ;;
    let email := support_email settings in
    throw (ErrBanned account_id email_address email)
  else ret is_banned.

Definition ttl : Z := 24 * 3600 * 30.

(** The record saved and the cookie set by [handle_new_sign_in]
    (lines 854-880). *)
Definition the_session (account_id hash_session_id : string) : dbE unit :=
  save_remember_me account_id hash_session_id
    (signed_in true (Opts.host opts) account_id (Opts.first_name opts)
       (Opts.last_name opts))
    ttl.

Definition the_session_cookie (hash_session_id session_id : string)
    : SetCookie :=
  set_cookie (remember_me_cookie_name (Opts.base_url opts) false)
    (Some (remember_me_value hash_session_id session_id))
    (Some (ttl * 1000)).

(** Lines 838-881. *)
Definition handle_new_sign_in : M S unit :=
  l <- get_locals ;;
  if Locals.has_valid_remember_me l then ret tt
  else
    match Locals.account_id l with
    | None => throw ErrAccountIdNull
    | Some account_id =>
        n <- draw ;;
        let session_id := uuid_v4 rt n in
        k <- draw ;;
        hash_session_id <- lift (password_hash rt k session_id) ;;
        callback2 db (the_session account_id hash_session_id) ;;
        cookies_set (the_session_cookie hash_session_id session_id)
    end.

(** The steps that settle the account (lines 589-597), and the steps
    before the ban check (lines 589-599). *)
Definition resolution_steps (winner : nat) : M S unit :=
  check_remember_me_cookie ;;
  check_passport_exists ;;
  check_existing_emails winner ;;
  maybe_create_account ;;
  maybe_record_sign_in.

Definition steps_before_ban_check (winner : nat) : M S unit :=
  resolution_steps winner ;;
  maybe_provision_api_key.

(** The steps after the API key (lines 600-603), and the steps after the
    account is settled (lines 598-603). *)
Definition after_api_key : M S unit :=
  l <- get_locals ;;
  _ <- is_user_banned (Locals.account_id l) (Locals.email_address l) ;;
  handle_new_sign_in.

Definition after_resolution : M S unit :=
  maybe_provision_api_key ;;
  after_api_key.

(** The [try] block of lines 588-604. *)
Definition login_steps (winner : nat) : M S unit :=
  check_remember_me_cookie ;;
  check_passport_exists ;;
  check_existing_emails winner ;;
  maybe_create_account ;;
  maybe_record_sign_in ;;
  maybe_provision_api_key ;;
  l <- get_locals ;;
  _ <- is_user_banned (Locals.account_id l) (Locals.email_address l) ;;
  handle_new_sign_in.

(** [if (err)] of line 605 *)
Definition err_truthy (e : Err) : bool :=
  match e with
  | ErrDb m => negb (String.eqb m "")
  | _ => true
  end.

Definition initial_locals (remember_me_cookie get_api_key : option string)
    : Locals.t :=
  Locals.mk None None false false (Opts.base_url opts +:+ "/app#login")
    remember_me_cookie get_api_key None None.

(** Lines 526-551: the locals as created, and the API-key cookie
    deleted when it is there. *)
Definition initial_state (remember_me_cookie get_api_key : option string)
    (s : S) (seed : nat) : State S :=
  let st0 :=
    mkState (initial_locals remember_me_cookie get_api_key) s seed [] [] in
  snd ((if truthy get_api_key then
          cookies_set
            (set_cookie (api_key_cookie_name (Opts.base_url opts)) None
               None)
        else ret tt) st0).

(** Lines 506-612, from the normalised [opts] and the two request
    cookies. *)
Definition passport_login (winner : nat)
    (remember_me_cookie get_api_key : option string) (s : S)
    (seed : nat) : Response * State S :=
  match login_steps winner
          (initial_state remember_me_cookie get_api_key s seed) with
  | (Ok _, st) => (NoResponse, st)
  | (Throw err, st) =>
      if err_truthy err then
        (Sent ("Error trying to login using " +:+ Opts.strategy opts
                 +:+ " -- " +:+ err_text err), st)
      else (Redirect (Locals.target (locals st)), st)
  end.
End PassportManager.

(** ** An in-memory database *)

Module MemStore.
(** Modelled from the spec: the database behind [this.database]
    ([./postgres/types]) is not part of this module; this is the
    AccountLinkStore of the specification's section 6, with the link
    unique per [(strategy, id)] and [create_passport] failing with
    [AlreadyExists] when the link is there. *)
Record t : Type := mk {
  links : gmap (string * string) string;
  by_email : gmap string string;
  remember_me : gmap string SignedInMesg;
  banned : gset string;
  settings : Settings;
  api_keys : gmap string string;
  created : nat                (* accounts and keys created so far *)
}.

Definition fresh (prefix : string) (s : t) : string :=
  prefix +:+ string_of_Z (Z.of_nat (created s)).

(** Modelled from the spec: the operations of the AccountLinkStore, one
    per call of the module; the calls that only log reply without a
    change, and the API keys of [./api/manage] are kept with the rest. *)
Definition handler : Database t :=
  fun T e =>
    match e in dbE T return t -> (string + T) * t with
    | get_remember_me hash => fun s => (inr (remember_me s !! hash), s)
    | passport_exists strategy id =>
        fun s => (inr (links s !! (strategy, id)), s)
    | create_passport account_id strategy id _ _ _ _ =>
        fun s =>
          match links s !! (strategy, id) with
          | Some _ => (inl "AlreadyExists", s)
          | None =>
              (inr tt,
               mk (<[(strategy, id) := account_id]> (links s)) (by_email s)
                  (remember_me s) (banned s) (settings s) (api_keys s)
                  (created s))
          end
    | account_exists email => fun s => (inr (by_email s !! email), s)
    | create_account _ _ email strategy id _ =>
        fun s =>
          let a := fresh "account-" s in
          (inr a,
           mk (<[(strategy, id) := a]> (links s))
              (match email with
               | Some em => <[em := a]> (by_email s)
               | None => by_email s
               end)
              (remember_me s) (banned s) (settings s) (api_keys s)
              (Datatypes.S (created s)))
    | do_account_creation_actions _ _ => fun s => (inr tt, s)
    | log_create_account _ _ _ _ _ => fun s => (inr tt, s)
    | record_sign_in _ _ _ _ => fun s => (inr tt, s)
    | api_key_action account_id action =>
        fun s =>
          match account_id, action with
          | None, _ => (inr None, s)
          | Some a, get => (inr (api_keys s !! a), s)
          | Some a, regenerate =>
              let k := fresh "sk_" s in
              (inr (Some k),
               mk (links s) (by_email s) (remember_me s) (banned s)
                  (settings s) (<[a := k]> (api_keys s))
                  (Datatypes.S (created s)))
          end
    | is_banned_user account_id =>
        fun s =>
          (inr match account_id with
               | Some a => bool_decide (a ∈ banned s)
               | None => false
               end, s)
    | get_server_settings_cached => fun s => (inr (settings s), s)
    | save_remember_me account_id hash value _ =>
        fun s =>
          (inr tt,
           mk (links s) (by_email s) (<[hash := value]> (remember_me s))
              (banned s) (settings s) (api_keys s) (created s))
    end.

(** The same database while a concurrent request, signed in as [rival],
    links the identity that this request has just looked up. *)
Definition racing (rival : string) : Database t :=
  fun T e s =>
    let '(r, s') := handler T e s in
    match e with
    | passport_exists strategy id =>
        (r,
         mk (<[(strategy, id) := rival]> (links s')) (by_email s')
            (remember_me s') (banned s') (settings s') (api_keys s')
            (created s'))
    | _ => (r, s')
    end.

(** The same database while the server settings cannot be read. *)
Definition without_settings : Database t :=
  fun T e =>
    match e in dbE T return t -> (string + T) * t with
    | get_server_settings_cached =>
        fun s => (inl "settings unavailable", s)
    | e => handler _ e
    end.

Definition empty : t :=
  mk ∅ ∅ ∅ ∅ {| help_email := None |} ∅ 0.
End MemStore.

(** A runtime to run examples with: a keyed hash that only records its
    arguments, decimal numerals, counters for the random values. *)
Module Example.
Fixpoint digits (s : string) (acc : Z) : option Z :=
  match s with
  | EmptyString => Some acc
  | String c s' =>
      let n := nat_of_ascii c in
      if (Nat.leb 48 n && Nat.leb n 57)%bool
      then digits s' (10 * acc + Z.of_nat (n - 48))
      else None
  end.

Definition decimal (s : string) : option Z :=
  match s with
  | EmptyString => Some 0
  | String "-" (String c s') => Z.opp <$> digits (String c s') 0
  | _ => digits s 0
  end.

Definition runtime : Runtime :=
  {| createHmac := fun algorithm key data =>
       inr ("hmac(" +:+ key +:+ "," +:+ data +:+ ")");
     to_number := decimal;
     uuid_v4 := fun n => "uuid-" +:+ string_of_Z (Z.of_nat n);
     fresh_salt := fun n => "salt-" +:+ string_of_Z (Z.of_nat n);
     HELP_EMAIL := "help@theme.example" |}.

(** The assertion of the specification's first scenario. *)
Definition github : Opts.t :=
  Opts.mk "github" "{}" "42" "" "Ada" (Some ["a@x.com"]) "10.0.0.1" ""
    "hub0".

(** The same identity with no email in the profile. *)
Definition github_no_email : Opts.t :=
  Opts.mk "github" "{}" "42" "" "Ada" (Some []) "10.0.0.1" "" "hub0".

(** A well-formed cookie and the hash it is looked up under. *)
Definition cookie : string := "sha512$salt$2$secret".
Definition cookie_hash : string :=
  "sha512$salt$2$hmac(salt,hmac(salt,secret))".

Definition me : SignedInMesg := signed_in true "hub0" "acct-me" "" "Ada".

(** A store in which [cookie] is the live session of [acct-me]. *)
Definition signed_in_store : MemStore.t :=
  MemStore.mk ∅ ∅ {[cookie_hash := me]} ∅ {| help_email := None |} ∅ 0.

(** The same, with the identity linked to another account. *)
Definition linked_elsewhere : MemStore.t :=
  MemStore.mk {[("github", "42") := "acct-other"]} ∅ {[cookie_hash := me]}
    ∅ {| help_email := None |} ∅ 0.

(** A store in which the identity is linked to [acct-A]. *)
Definition linked_store : MemStore.t :=
  MemStore.mk {[("github", "42") := "acct-A"]} ∅ ∅ ∅
    {| help_email := None |} ∅ 0.

(** The same, with [acct-A] banned. *)
Definition banned_store : MemStore.t :=
  MemStore.mk {[("github", "42") := "acct-A"]} ∅ ∅ {["acct-A"]}
    {| help_email := Some "support@example.org" |} ∅ 0.

(** The hash under which the first session of a run is saved. *)
Definition session_hash : string :=
  match password_hash runtime 1 "uuid-0" with
  | Ok h => h
  | Throw _ => ""
  end.


(** A store in which an account has the email of [github]. *)
Definition store_with_email : MemStore.t :=
  MemStore.mk {[("github", "42") := "account-0"]}
    {["a@x.com" := "account-0"]} ∅ ∅ {| help_email := None |} ∅ 1.

(** The same person arriving through another provider. *)
Definition google : Opts.t :=
  Opts.mk "google" "{}" "99" "Ada" "L" (Some ["a@x.com"]) "10.0.0.1" ""
    "hub0".

(** [signed_in_store] with [acct-me] banned. *)
Definition banned_signed_in_store : MemStore.t :=
  MemStore.mk ∅ ∅ {[cookie_hash := me]} {["acct-me"]}
    {| help_email := None |} ∅ 0.
End Example.


(** ** The specification's view of a run *)

(** The specification names four outcomes of an attempt; the code has no
    such value.  This reads them off the state in which the [try] block
    ends: a thrown error rejects, [new_account_created] says an account was
    created, a [create_passport] call says a link was added. *)
Inductive Outcome : Type :=
  | Rejected (reason : Err)
  | SignedIn (account_id : option string)
  | Linked (account_id : option string)
  | Created (account_id email_address : option string).

Definition is_create_passport (c : Call) : bool :=
  match projT2 c with
  | create_passport _ _ _ _ _ _ _ => true
  | _ => false
  end.

Definition is_save_remember_me (c : Call) : bool :=
  match projT2 c with
  | save_remember_me _ _ _ _ => true
  | _ => false
  end.

Definition is_create_account (c : Call) : bool :=
  match projT2 c with
  | create_account _ _ _ _ _ _ => true
  | _ => false
  end.

Definition is_account_exists (c : Call) : bool :=
  match projT2 c with
  | account_exists _ => true
  | _ => false
  end.

Definition is_api_key_action (c : Call) : bool :=
  match projT2 c with
  | api_key_action _ _ => true
  | _ => false
  end.

Definition outcome {S} (r : Res unit * State S) : Outcome :=
  match r with
  | (Throw e, _) => Rejected e
  | (Ok _, st) =>
      let l := locals st in
      if Locals.new_account_created l
      then Created (Locals.account_id l) (Locals.email_address l)
      else if existsb is_create_passport (trace st)
      then Linked (Locals.account_id l)
      else SignedIn (Locals.account_id l)
  end.

(** A probe's reply that names no account. *)
Definition no_match (r : string * (string + option string)) : Prop :=
  exists a, snd r = inr a /\ truthy a = false.

(** The cookies of the response that carry a session. *)
Definition session_cookies {S} (base_url : string) (st : State S)
    : list SetCookie :=
  filter (fun c => cookie_name c = remember_me_cookie_name base_url false)
    (jar st).

(** No session has been issued between the states [st] and [st']: no
    cookie was set and no remember-me record was saved. *)
Definition no_session_since {S} (st st' : State S) : Prop :=
  jar st' = jar st
  /\ exists calls, trace st' = (trace st ++ calls)%list
       /\ Forall (fun c => is_save_remember_me c = false) calls.

Definition silent {S A} (m : M S A) : Prop :=
  forall st r st', m st = (r, st') -> no_session_since st st'.

(** A computation that, when it returns, has left [locals.email_address]
    as it was. *)
Definition keeps_email {S A} (m : M S A) : Prop :=
  forall st a st',
    m st = (Ok a, st') ->
    Locals.email_address (locals st') = Locals.email_address (locals st).

(** ** The normalisation of the login options (lines 553-584) *)

(** ASCII range of the white space that [String.prototype.trim] removes. *)
Definition is_space (c : ascii) : bool :=
  let n := nat_of_ascii c in
  (Nat.leb 9 n && Nat.leb n 13)%bool || Nat.eqb n 32.

Fixpoint trim_start (s : string) : string :=
  match s with
  | EmptyString => EmptyString
  | String c s' => if is_space c then trim_start s' else s
  end.

(** The string without its trailing white space. *)
Fixpoint trim_end (s : string) : string :=
  match s with
  | EmptyString => EmptyString
  | String c s' =>
      match trim_end s' with
      | EmptyString => if is_space c then EmptyString else String c EmptyString
      | t => String c t
      end
  end.

Definition trim (s : string) : string := trim_end (trim_start s).

(** [s.lastIndexOf(c)] for a character [c]; [None] is -1. *)
Fixpoint lastIndexOf (c : ascii) (s : string) : option nat :=
  match s with
  | EmptyString => None
  | String d s' =>
      match lastIndexOf c s' with
      | Some i => Some (Datatypes.S i)
      | None => if Ascii.eqb d c then Some O else None
      end
  end.

(** [s.slice(0, i)] and [s.slice(i)] for [0 <= i]. *)
Fixpoint slice_to (i : nat) (s : string) : string :=
  match i, s with
  | Datatypes.S i', String c s' => String c (slice_to i' s')
  | _, _ => EmptyString
  end.

Fixpoint slice_from (i : nat) (s : string) : string :=
  match i, s with
  | Datatypes.S i', String c s' => slice_from i' s'
  | _, _ => s
  end.

Module Raw.
(** The [id] a strategy derives from a profile: often a number. *)
Inductive Id : Type :=
  | num (n : Z)
  | str (s : string).

(** [PassportLogin] as [init_strategy] passes it (lines 483-501).  An
    element of [emails] that is not a string is [None]. *)
Record t : Type := mk {
  strategy : string;
  profile : string;
  id : Id;
  first_name : option string;
  last_name : option string;
  full_name : option string;
  emails : option (list (option string));
  ip : string;
  base_url : string;
  host : string
}.
End Raw.

(** Lines 553-570: the names. *)
Definition derive_names (first_name last_name full_name : option string)
    : string * string :=
  match full_name, first_name, last_name with
  | Some name, None, None =>
      match lastIndexOf " " name with
      | None => ("", name)
      | Some i => (trim (slice_to i name), trim (slice_from i name))
      end
  | _, _, _ => (default "" first_name, default "" last_name)
  end.

(** Lines 572-582: the emails.  [is_valid_email_address] is a function of
    [smc-util/misc]. *)
Definition normalize_emails (is_valid_email_address : string -> bool)
    (emails : option (list (option string))) : option (list string) :=
  match emails with
  | Some es =>
      Some (omap (fun x =>
                    match x with
                    | Some e =>
                        if is_valid_email_address e
                        then Some (toLowerCase e) else None
                    | None => None
                    end) es)
  | None => None
  end.

(** Line 584: the id as a string. *)
Definition show_id (i : Raw.Id) : string :=
  match i with
  | Raw.num n => string_of_Z n
  | Raw.str s => s
  end.

Definition normalize (is_valid_email_address : string -> bool) (raw : Raw.t)
    : Opts.t :=
  let names :=
    derive_names (Raw.first_name raw) (Raw.last_name raw)
      (Raw.full_name raw) in
  Opts.mk (Raw.strategy raw) (Raw.profile raw) (show_id (Raw.id raw))
    (fst names) (snd names)
    (normalize_emails is_valid_email_address (Raw.emails raw))
    (Raw.ip raw) (Raw.base_url raw) (Raw.host raw).

(** ** [is_password_correct] (lines 918-973) *)

Record Account : Type := { account_password_hash : option string }.

(** The two database calls of [is_password_correct]. *)
Inductive accountE : Type -> Type :=
  | get_account (account_id email_address : option string)
      (columns : list string) : accountE Account
  | change_password (account_id password_hash : string)
      (invalidate_remember_me : bool) : accountE unit.

Definition AccountCall : Type := { T : Type & accountE T }.

Definition Accounts (S : Type) : Type :=
  forall T, accountE T -> S -> (string + T) * S.

Record IsPasswordCorrect : Type := {
  pc_password : string;
  pc_password_hash : option string;
  pc_account_id : option string;
  pc_email_address : option string;
  pc_allow_empty_password : bool
}.

(** What [opts.cb] is called with: the error, a string or a caught
    exception, and the verdict. *)
Inductive CbErr : Type :=
  | CbMessage (m : string)
  | CbThrown (e : Err).

Record Called : Type := cb {
  cb_err : option CbErr;
  cb_correct : option bool
}.

Section IsPasswordCorrect.
Context (rt : Runtime) {S : Type} (accounts : Accounts S).
(** [password_hash_library.verify(password, hash)], where the stored
    hash may be absent. *)
Context (verify : string -> option string -> bool).

Definition is_password_correct (opts : IsPasswordCorrect) (s : S)
    (seed : nat) : Called * S * list AccountCall :=
  match pc_password_hash opts with
  | Some h => (cb None (Some (verify (pc_password opts) (Some h))), s, [])
  | None =>
      match pc_account_id opts, pc_email_address opts with
      | None, None =>
          (cb (Some (CbMessage
                       "One of password_hash, account_id, or email_address must be specified."))
              None, s, [])
      | _, _ =>
          let e :=
            get_account (pc_account_id opts) (pc_email_address opts)
              ["password_hash"] in
          match accounts _ e s with
          | (inl err, s1) => (cb (Some (CbMessage err)) None, s1, [existT _ e])
          | (inr account, s1) =>
              if pc_allow_empty_password opts
                 && negb (truthy (account_password_hash account))
              then
                match negb (String.eqb (pc_password opts) ""),
                      pc_account_id opts with
                | true, Some a =>
                    if truthy (Some a) then
                      match password_hash rt seed (pc_password opts) with
                      | Throw x =>
                          (cb (Some (CbThrown x)) None, s1, [existT _ e])
                      | Ok h =>
                          let c := change_password a h false in
                          match accounts _ c s1 with
                          | (inl err, s2) =>
                              (cb (Some (CbMessage err)) (Some true), s2,
                               [existT _ e; existT _ c])
                          | (inr _, s2) =>
                              (cb None (Some true), s2,
                               [existT _ e; existT _ c])
                          end
                      end
                    else (cb None (Some true), s1, [existT _ e])
                | _, _ => (cb None (Some true), s1, [existT _ e])
                end
              else
                (cb None
                    (Some (verify (pc_password opts)
                             (account_password_hash account))),
                 s1, [existT _ e])
          end
      end
  end.
End IsPasswordCorrect.

(** The arguments of a call that sets a password. *)
Definition change_password_of (c : AccountCall)
    : option (string * string * bool) :=
  match projT2 c with
  | change_password a h i => Some (a, h, i)
  | get_account _ _ _ => None
  end.

Definition password_changes (calls : list AccountCall)
    : list (string * string * bool) :=
  omap change_password_of calls.

(** An account table for the examples: the stored hash of each account,
    by account id; an account without a password has no entry. *)
Definition stored_passwords : Accounts (gmap string string) :=
  fun T e =>
    match e in accountE T return gmap string string
                                 -> (string + T) * gmap string string with
    | get_account account_id _ _ =>
        fun s =>
          (inr {| account_password_hash := s !! default "" account_id |}, s)
    | change_password account_id h _ =>
        fun s => (inr tt, <[account_id := h]> s)
    end.

(** A stand-in for the library's check, and two calls, for the
    examples. *)
Definition plain_verify (password : string) (hash : option string) : bool :=
  match hash with
  | Some h => String.eqb h ("hash of " +:+ password)
  | None => false
  end.

Definition first_password : IsPasswordCorrect :=
  {| pc_password := "pw"; pc_password_hash := None;
     pc_account_id := Some "acct-A"; pc_email_address := None;
     pc_allow_empty_password := true |}.

Definition password_to_check : IsPasswordCorrect :=
  {| pc_password := "pw"; pc_password_hash := None;
     pc_account_id := Some "acct-A"; pc_email_address := None;
     pc_allow_empty_password := false |}.

(** ** The list of strategies (lines 340-360 and 376-440) *)

Record Conf : Type := { conf_auth : option string }.

(** [get_conf]: the settings are a promise when they are tested, which is
    never null, so every strategy asked for is listed, [site_conf]
    apart. *)
Definition get_conf_listed (strategy : string) (strategies : list string)
    : list string :=
  if String.eqb strategy "site_conf" then strategies
  else strategies ++ [strategy].

(** [Array.prototype.sort] on strings, by insertion. *)
Fixpoint sort_insert (x : string) (l : list string) : list string :=
  match l with
  | [] => [x]
  | y :: l' => if String.leb x y then x :: l else y :: sort_insert x l'
  end.

Definition sort_strings (l : list string) : list string :=
  foldr sort_insert [] l.

(** The strategies that [init] starts, in the order of line 431-436. *)
Definition started_strategies : list string :=
  ["google"; "github"; "facebook"; "twitter"].

(** [this.strategies] when [init] ends, from the passport settings of the
    database: [inl] is an error of the call, [None] no settings. *)
Definition init_strategies (settings : string -> string + option Conf)
    : Res unit * list string :=
  let strategies := get_conf_listed "site_conf" [] in
  match settings "site_conf" with
  | inl err => (Throw (ErrDb err), strategies)
  | inr site_conf =>
      let auth_url :=
        match site_conf with
        | Some c => conf_auth c
        | None => None
        end in
      let strategies :=
        match auth_url with
        | Some _ => foldl (fun l s => get_conf_listed s l) strategies
                      started_strategies
        | None => strategies
        end in
      (Ok tt, "email" :: sort_strings strategies)
  end.

(** ** The calls a step can make *)

Inductive Kind : Type :=
  | KGetRememberMe | KPassportExists | KCreatePassport | KAccountExists
  | KCreateAccount | KAccountCreationActions | KLog | KRecordSignIn
  | KApiKeyAction | KIsBannedUser | KServerSettings | KSaveRememberMe.

Definition kind_of (c : Call) : Kind :=
  match projT2 c with
  | get_remember_me _ => KGetRememberMe
  | passport_exists _ _ => KPassportExists
  | create_passport _ _ _ _ _ _ _ => KCreatePassport
  | account_exists _ => KAccountExists
  | create_account _ _ _ _ _ _ => KCreateAccount
  | do_account_creation_actions _ _ => KAccountCreationActions
  | log_create_account _ _ _ _ _ => KLog
  | record_sign_in _ _ _ _ => KRecordSignIn
  | api_key_action _ _ => KApiKeyAction
  | is_banned_user _ => KIsBannedUser
  | get_server_settings_cached => KServerSettings
  | save_remember_me _ _ _ _ => KSaveRememberMe
  end.

Definition kind_eqb (a b : Kind) : bool :=
  match a, b with
  | KGetRememberMe, KGetRememberMe | KPassportExists, KPassportExists
  | KCreatePassport, KCreatePassport | KAccountExists, KAccountExists
  | KCreateAccount, KCreateAccount
  | KAccountCreationActions, KAccountCreationActions | KLog, KLog
  | KRecordSignIn, KRecordSignIn | KApiKeyAction, KApiKeyAction
  | KIsBannedUser, KIsBannedUser | KServerSettings, KServerSettings
  | KSaveRememberMe, KSaveRememberMe => true
  | _, _ => false
  end.

Definition kind_in (ks : list Kind) (c : Call) : bool :=
  existsb (kind_eqb (kind_of c)) ks.

(** Whatever a run of [m] does, returning or throwing, it adds to the
    trace only calls of the kinds [ks]. *)
Definition calls_within {S A} (ks : list Kind) (m : M S A) : Prop :=
  forall st r st',
    m st = (r, st') ->
    exists calls,
      trace st' = (trace st ++ calls)%list
      /\ Forall (fun c => kind_in ks c = true) calls.

(** A computation that, when it returns, has left the field [f] of the
    locals as it was. *)
Definition keeps {S A X} (f : Locals.t -> X) (m : M S A) : Prop :=
  forall st a st',
    m st = (Ok a, st') -> f (locals st') = f (locals st).

(** A computation that throws only errors in [P]. *)
Definition throws_only {S A} (P : Err -> Prop) (m : M S A) : Prop :=
  forall st e st', m st = (Throw e, st') -> P e.

(** Any error but the one of the guard of line 846,
    "locals.account_id is null". *)
Definition not_the_null_guard (e : Err) : Prop := e <> ErrAccountIdNull.

(** * Properties *)

(** ** Splitting and joining on a character *)

Lemma occurrences_app c a b :
  occurrences c (a +:+ b) = (occurrences c a + occurrences c b)%nat.
Proof.
  induction a as [|d a IH]; simpl; [reflexivity|].
  rewrite IH. lia.
Qed.

Lemma length_split c s : length (split c s) = Datatypes.S (occurrences c s).
Proof.
  induction s as [|d s IH]; simpl; [reflexivity|].
  destruct (Ascii.eqb d c); simpl; [now rewrite IH|].
  destruct (split c s) as [|f fs]; simpl in *; lia.
Qed.

Lemma split_app_sep c a b :
  occurrences c a = 0%nat -> split c (a +:+ String c b) = a :: split c b.
Proof.
  induction a as [|d a IH]; simpl; intros H.
  - now rewrite Ascii.eqb_refl.
  - destruct (Ascii.eqb d c); [discriminate|].
    now rewrite IH.
Qed.

Lemma split_whole c a : occurrences c a = 0%nat -> split c a = [a].
Proof.
  induction a as [|d a IH]; simpl; intros H; [reflexivity|].
  destruct (Ascii.eqb d c); [discriminate|].
  now rewrite IH.
Qed.

Lemma join_split c s : join (String c "") (split c s) = s.
Proof.
  induction s as [|d s IH]; simpl; [reflexivity|].
  destruct (Ascii.eqb d c) eqn:E.
  - apply Ascii.eqb_eq in E. subst d.
    pose proof (length_split c s) as L.
    destruct (split c s) as [|f fs]; [discriminate|].
    simpl in *. now rewrite IH.
  - pose proof (length_split c s) as L.
    destruct (split c s) as [|f fs]; [discriminate|].
    destruct fs; simpl in *; now rewrite <- IH.
Qed.

Lemma has_char_false c s : has_char c s = false <-> occurrences c s = 0%nat.
Proof.
  unfold has_char. rewrite negb_false_iff. apply Nat.eqb_eq.
Qed.

(** The fields of a split have no separator left in them. *)
Lemma split_fields_clean c s :
  Forall (fun f => occurrences c f = 0%nat) (split c s).
Proof.
  induction s as [|d s IH]; simpl; [repeat constructor|].
  destruct (Ascii.eqb d c) eqn:E; [now constructor|].
  destruct (split c s) as [|f fs]; [repeat constructor; simpl; now rewrite E|].
  inversion IH; subst. constructor; [simpl; now rewrite E | assumption].
Qed.

Lemma at_index_clean c (x : list string) i :
  Forall (fun f => occurrences c f = 0%nat) x ->
  occurrences c (at_index x i) = 0%nat.
Proof.
  intros H. unfold at_index. revert i.
  induction H as [|f fs Hf _ IH]; intros [|i]; simpl; auto.
Qed.

(** The number of fields of an encoded token. *)
Lemma length_encode a s i x :
  length (split dollar (encode_remember_me a s i x))
  = (4 + (occurrences dollar a + occurrences dollar s
          + occurrences dollar i + occurrences dollar x))%nat.
Proof.
  unfold encode_remember_me, join.
  rewrite length_split, !occurrences_app. simpl. lia.
Qed.

(** ** The hashing loop *)

Section HashingFacts.
Context (rt : Runtime).

Lemma for_rounds_asc algorithm salt e n : forall fuel i hash,
  e - i + 1 = Z.of_nat n -> (n <= fuel)%nat ->
  for_rounds rt fuel algorithm salt true (Some e) i hash
  = crypto (hmac_rounds rt n algorithm salt hash).
Proof.
  induction n as [|n IH]; intros fuel i hash Hn Hf.
  - destruct fuel; simpl; [reflexivity|].
    destruct (Z.leb_spec i e); [lia | reflexivity].
  - destruct fuel as [|fuel]; [lia|]. simpl.
    destruct (Z.leb_spec i e); [|lia].
    destruct (createHmac rt algorithm salt hash); [reflexivity|].
    apply IH; lia.
Qed.

Lemma for_rounds_desc algorithm salt e n : forall fuel i hash,
  i - e + 1 = Z.of_nat n -> (n <= fuel)%nat ->
  for_rounds rt fuel algorithm salt false (Some e) i hash
  = crypto (hmac_rounds rt n algorithm salt hash).
Proof.
  induction n as [|n IH]; intros fuel i hash Hn Hf.
  - destruct fuel; simpl; [reflexivity|].
    unfold Z.geb. destruct (Z.compare_spec i e); try lia. reflexivity.
  - destruct fuel as [|fuel]; [lia|]. simpl.
    unfold Z.geb. destruct (Z.compare_spec i e); try lia;
    (destruct (createHmac rt algorithm salt hash); [reflexivity|];
     apply IH; lia).
Qed.

Lemma for_rounds_nan algorithm salt asc fuel i hash :
  for_rounds rt fuel algorithm salt asc None i hash = Ok hash.
Proof. destruct fuel, asc; reflexivity. Qed.

(** [loop_bound] is enough: any larger fuel gives the same result, which
    is [rounds_of] rounds of the keyed hash. *)
Lemma for_rounds_stable algorithm salt e hash extra :
  for_rounds rt (loop_bound e + extra) algorithm salt (js_le 1 e) e 1 hash
  = crypto (hmac_rounds rt (rounds_of e) algorithm salt hash).
Proof.
  destruct e as [e|]; [|apply for_rounds_nan].
  unfold loop_bound, rounds_of, js_le.
  destruct (Z.leb_spec 1 e).
  - apply for_rounds_asc; lia.
  - apply for_rounds_desc; lia.
Qed.

Lemma for_rounds_bound algorithm salt e hash :
  for_rounds rt (loop_bound e) algorithm salt (js_le 1 e) e 1 hash
  = crypto (hmac_rounds rt (rounds_of e) algorithm salt hash).
Proof.
  rewrite <- (for_rounds_stable algorithm salt e hash 0).
  now rewrite Nat.add_0_r.
Qed.

Lemma generate_hash_rounds algorithm salt iterations password :
  generate_hash rt (Some algorithm) (Some salt) iterations password
  = match hmac_rounds rt (rounds_of (number_of rt (or_one iterations)))
            algorithm salt password with
    | inr hash =>
        Ok (algorithm +:+ "$" +:+ salt +:+ "$"
              +:+ show_iterations (or_one iterations) +:+ "$" +:+ hash)
    | inl m => Throw (ErrCrypto m)
    end.
Proof.
  unfold generate_hash. rewrite for_rounds_bound.
  now destruct (hmac_rounds rt _ algorithm salt password).
Qed.
End HashingFacts.


(** ** Claims about hashing and the cookie format *)

(** C7 (as amended).  [generate_hash] fails with the undefined-arguments
    error exactly when the algorithm or the salt is absent.  Otherwise, for
    an integer [iterations] it returns [algorithm$salt$k$digest], where for
    [iterations >= 0] the digest is [max iterations 1] rounds of the keyed
    hash (round 1 on the secret, round i on round i-1's output) and [k] is
    [max iterations 1], so that 0 behaves as 1; for [iterations < 0] the
    loop counts down from 1 to [iterations]: [2 - iterations] rounds, and
    [k] is [iterations] itself.  The only other failure is an error
    thrown inside the keyed hash. *)
Theorem generate_hash_integer_iterations
    (rt : Runtime) (algorithm salt : option string) (iterations : Z)
    (secret : string) :
  generate_hash rt algorithm salt (INum iterations) secret
  = match algorithm, salt with
    | Some a, Some s =>
        match hmac_rounds rt (rounds_run iterations) a s secret with
        | inr digest =>
            Ok (a +:+ "$" +:+ s +:+ "$"
                  +:+ string_of_Z (iterations_shown iterations)
                  +:+ "$" +:+ digest)
        | inl m => Throw (ErrCrypto m)
        end
    | _, _ => Throw (ErrUndefinedArguments algorithm salt)
    end.
Proof.
  destruct algorithm as [a|], salt as [s|]; try reflexivity.
  rewrite generate_hash_rounds.
  unfold rounds_run, iterations_shown.
  destruct (Z.eq_dec iterations 0) as [->|Hne]; [reflexivity|].
  assert (or_one (INum iterations) = INum iterations) as ->
    by (destruct iterations; [congruence | reflexivity | reflexivity]).
  simpl. destruct (Z.leb_spec 0 iterations), (Z.leb_spec 1 iterations);
    try lia; now rewrite ?Z.max_l by lia.
Qed.


(** ** How each step runs *)

Lemma bind_ok {S A B} (m : M S A) (k : A -> M S B) st a st' :
  m st = (Ok a, st') -> bind m k st = k a st'.
Proof. unfold bind. now intros ->. Qed.

Lemma bind_throw {S A B} (m : M S A) (k : A -> M S B) st e st' :
  m st = (Throw e, st') -> bind m k st = (Throw e, st').
Proof. unfold bind. now intros ->. Qed.

Lemma bind_assoc {S A B C} (m : M S A) (k : A -> M S B) (h : B -> M S C) st :
  bind (bind m k) h st = bind m (fun a => bind (k a) h) st.
Proof. unfold bind. destruct (m st) as [[a|e] st']; reflexivity. Qed.

Ltac state_simpl :=
  cbn [with_locals answered locals store draws jar trace negb andb fst snd].

Ltac unfold_monad :=
  unfold fire_and_forget;
  unfold bind, get_locals, modify, ret, throw, callback2, start, lift,
    cookies_set, draw.

Section StepFacts.
Context (rt : Runtime) {S : Type} (db : Database S) (opts : Opts.t).


Lemma callback2_ok {T} (e : dbE T) st v s' :
  db T e (store st) = (inr v, s') ->
  callback2 db e st = (Ok v, answered e s' st).
Proof. unfold callback2. now intros ->. Qed.

Lemma callback2_err {T} (e : dbE T) st err s' :
  db T e (store st) = (inl err, s') ->
  callback2 db e st = (Throw (ErrDb err), answered e s' st).
Proof. unfold callback2. now intros ->. Qed.

(** *** [check_remember_me_cookie] *)

Lemma no_cookie_no_check st :
  truthy (Locals.remember_me_cookie (locals st)) = false ->
  check_remember_me_cookie rt db st = (Ok tt, st).
Proof.
  intros H. unfold check_remember_me_cookie.
  unfold_monad. now rewrite H.
Qed.

Lemma truthy_some v : v <> "" -> truthy (Some v) = true.
Proof. intros H. simpl. now destruct (String.eqb_spec v ""). Qed.

Lemma malformed_cookie_throws st value :
  Locals.remember_me_cookie (locals st) = Some value ->
  value <> "" ->
  decode_remember_me value = Throw ErrBadlyFormattedCookie ->
  check_remember_me_cookie rt db st = (Throw ErrBadlyFormattedCookie, st).
Proof.
  intros Hc Hv Hd. unfold check_remember_me_cookie.
  unfold_monad. rewrite Hc, (truthy_some _ Hv). 
    cbn [negb default from_option id].
  now rewrite Hd.
Qed.

(** The hash under which a presented cookie is looked up, if it can be
    computed. *)
Lemma unhashable_cookie_ignored st value x err :
  Locals.remember_me_cookie (locals st) = Some value ->
  value <> "" ->
  decode_remember_me value = Ok x ->
  generate_hash rt (x !! 0%nat) (x !! 1%nat) (IStr (at_index x 2))
    (at_index x 3) = Throw err ->
  check_remember_me_cookie rt db st = (Ok tt, st).
Proof.
  intros Hc Hv Hd Hh. unfold check_remember_me_cookie.
  unfold_monad. rewrite Hc, (truthy_some _ Hv). 
    cbn [negb default from_option id].
  now rewrite Hd, Hh.
Qed.

Lemma unknown_cookie_throws st value x hash s' :
  Locals.remember_me_cookie (locals st) = Some value ->
  value <> "" ->
  decode_remember_me value = Ok x ->
  generate_hash rt (x !! 0%nat) (x !! 1%nat) (IStr (at_index x 2))
    (at_index x 3) = Ok hash ->
  db _ (get_remember_me hash) (store st) = (inr None, s') ->
  check_remember_me_cookie rt db st
  = (Throw ErrNoValidRememberMe, answered (get_remember_me hash) s' st).
Proof.
  intros Hc Hv Hd Hh Hdb. unfold check_remember_me_cookie.
  unfold_monad. rewrite Hc, (truthy_some _ Hv). 
    cbn [negb default from_option id].
  now rewrite Hd, Hh, Hdb.
Qed.

Lemma live_cookie_authenticates st value x hash m s' :
  Locals.remember_me_cookie (locals st) = Some value ->
  value <> "" ->
  decode_remember_me value = Ok x ->
  generate_hash rt (x !! 0%nat) (x !! 1%nat) (IStr (at_index x 2))
    (at_index x 3) = Ok hash ->
  db _ (get_remember_me hash) (store st) = (inr (Some m), s') ->
  check_remember_me_cookie rt db st
  = (Ok tt,
     with_locals (Locals.authenticated (sm_account_id m))
       (answered (get_remember_me hash) s' st)).
Proof.
  intros Hc Hv Hd Hh Hdb. unfold check_remember_me_cookie.
  unfold_monad. rewrite Hc, (truthy_some _ Hv). 
    cbn [negb default from_option id].
  now rewrite Hd, Hh, Hdb.
Qed.
(** *** [check_passport_exists] *)


(** Found, caller authenticated as another account: rejected after the
    one lookup. *)
Lemma passport_of_another_account_throws st a b s' :
  Locals.has_valid_remember_me (locals st) = true ->
  Locals.account_id (locals st) = Some b ->
  db _ (the_passport opts) (store st) = (inr (Some a), s') ->
  a <> "" -> a <> b ->
  check_passport_exists db opts st
  = (Throw (ErrPassportConflict (Opts.strategy opts)),
     answered (the_passport opts) s' st).
Proof.
  intros Hv Hb Hdb Ha Hab. unfold check_passport_exists. unfold_monad.
  rewrite Hdb. cbn [locals store answered].
  rewrite Hv, Hb, (truthy_some _ Ha). cbn [negb andb].
  rewrite bool_decide_eq_false_2 by congruence. reflexivity.
Qed.

(** Not found, caller authenticated: the link is created; an error of
    [create_passport] is the attempt's error, and nothing is looked up
    again. *)
Lemma passport_creation_error_throws st r b s' err s'' :
  Locals.has_valid_remember_me (locals st) = true ->
  Locals.account_id (locals st) = Some b ->
  db _ (the_passport opts) (store st) = (inr r, s') ->
  truthy r = false ->
  db _ (the_new_passport opts b) s' = (inl err, s'') ->
  check_passport_exists db opts st
  = (Throw (ErrDb err),
     answered (the_new_passport opts b) s'' (answered (the_passport opts) s' st)).
Proof.
  intros Hv Hb Hdb Hr Hc. unfold check_passport_exists. unfold_monad.
  rewrite Hdb. cbn [locals store answered].
  rewrite Hv, Hb, Hr. cbn [negb andb].
  unfold answered at 1. cbn [store]. rewrite Hc. reflexivity.
Qed.

Lemma passport_created_for_caller st r b s' s'' :
  Locals.has_valid_remember_me (locals st) = true ->
  Locals.account_id (locals st) = Some b ->
  db _ (the_passport opts) (store st) = (inr r, s') ->
  truthy r = false ->
  db _ (the_new_passport opts b) s' = (inr tt, s'') ->
  check_passport_exists db opts st
  = (Ok tt,
     answered (the_new_passport opts b) s'' (answered (the_passport opts) s' st)).
Proof.
  intros Hv Hb Hdb Hr Hc. unfold check_passport_exists. unfold_monad.
  rewrite Hdb. cbn [locals store answered].
  rewrite Hv, Hb, Hr. cbn [negb andb].
  unfold answered at 1. cbn [store]. rewrite Hc. reflexivity.
Qed.

(** *** [check_existing_emails] *)

Lemma known_account_skips_email_check winner st :
  truthy (Locals.account_id (locals st)) = true ->
  check_existing_emails db opts winner st = (Ok tt, st).
Proof.
  intros H. unfold check_existing_emails. unfold_monad.
  destruct (Opts.emails opts); [|reflexivity]. now rewrite H.
Qed.

(** Every probe is started, and starting them leaves the locals alone. *)
Lemma probes_all_started emails : forall st,
  truthy (Locals.account_id (locals st)) = false ->
  exists replies calls st',
    probes_started db emails st = (Ok replies, st')
    /\ length replies = length emails
    /\ locals st' = locals st
    /\ jar st' = jar st
    /\ trace st' = (trace st ++ calls)%list
    /\ Forall (fun c => is_account_exists c = true) calls.
Proof.
  induction emails as [|email rest IH]; intros st Hf.
  - exists [], [], st. cbn. rewrite app_nil_r. repeat split.
    constructor.
  - cbn [probes_started]. unfold_monad. rewrite Hf.
    destruct (db _ (account_exists (toLowerCase email)) (store st))
      as [r s'] eqn:E.
    destruct (IH (answered (account_exists (toLowerCase email)) s' st))
      as (rs & calls & st' & Hrun & Hlen & Hloc & Hjar & Htr & Hcalls);
      [exact Hf|].
    exists ((email, r) :: rs),
      (called (account_exists (toLowerCase email)) :: calls), st'.
    unfold bind in Hrun. rewrite Hrun. cbn [length].
    cbn [answered trace locals jar] in *.
    rewrite Htr, <- app_assoc.
    repeat split; try congruence.
    constructor; [reflexivity | exact Hcalls].
Qed.

(** *** [maybe_create_account] *)

Lemma known_account_is_not_created st :
  truthy (Locals.account_id (locals st)) = true ->
  maybe_create_account db opts st = (Ok tt, st).
Proof.
  intros H. unfold maybe_create_account. unfold_monad. now rewrite H.
Qed.

(** *** [maybe_record_sign_in] *)


Lemma creation_is_not_a_sign_in st :
  Locals.new_account_created (locals st) = true ->
  maybe_record_sign_in db opts st = (Ok tt, st).
Proof.
  intros Hn. unfold maybe_record_sign_in. unfold_monad. now rewrite Hn.
Qed.

(** *** [maybe_provision_api_key] *)

Lemma no_api_key_requested st :
  truthy (Locals.get_api_key (locals st)) = false ->
  maybe_provision_api_key db st = (Ok tt, st).
Proof.
  intros H. unfold maybe_provision_api_key. unfold_monad. now rewrite H.
Qed.



(** *** [is_user_banned] *)



(** *** [handle_new_sign_in] *)

Lemma authenticated_caller_keeps_cookie st :
  Locals.has_valid_remember_me (locals st) = true ->
  handle_new_sign_in rt db opts st = (Ok tt, st).
Proof.
  intros H. unfold handle_new_sign_in. unfold_monad. now rewrite H.
Qed.

(** *** The order of the steps *)

Lemma login_steps_resolution winner st :
  login_steps rt db opts winner st
  = bind (resolution_steps rt db opts winner) (fun _ => after_resolution rt db opts)
      st.
Proof.
  unfold login_steps, resolution_steps, after_resolution, after_api_key.
  rewrite !bind_assoc. unfold bind.
  repeat match goal with
         | |- context [match ?m st with _ => _ end] =>
             destruct (m st) as [[[]|?] ?]; try reflexivity
         | |- context [match ?m ?s with _ => _ end] =>
             is_var s; destruct (m s) as [[[]|?] ?]; try reflexivity
         end.
Qed.

Lemma login_steps_before_ban_check winner st :
  login_steps rt db opts winner st
  = bind (steps_before_ban_check rt db opts winner)
      (fun _ => after_api_key rt db opts) st.
Proof.
  rewrite login_steps_resolution. unfold steps_before_ban_check.
  now rewrite bind_assoc.
Qed.
(** *** No session is issued before the last step *)

Lemma no_session_since_refl (st : State S) : no_session_since st st.
Proof.
  split; [reflexivity|]. exists []. now rewrite app_nil_r.
Qed.

Lemma no_session_since_trans (st1 st2 st3 : State S) :
  no_session_since st1 st2 -> no_session_since st2 st3 ->
  no_session_since st1 st3.
Proof.
  intros [Hj (c & Ht & Hc)] [Hj' (c' & Ht' & Hc')].
  split; [congruence|]. exists (c ++ c')%list.
  rewrite Ht', Ht, app_assoc. split; [reflexivity|].
  now apply Forall_app.
Qed.

Lemma silent_bind {A B} (m : M S A) (k : A -> M S B) :
  silent m -> (forall a, silent (k a)) -> silent (bind m k).
Proof.
  intros Hm Hk st r st'. unfold bind.
  destruct (m st) as [[a|e] st1] eqn:E; intros H.
  - eapply no_session_since_trans; [eapply Hm, E | eapply Hk, H].
  - inversion H; subst. eapply Hm, E.
Qed.

Lemma silent_pure {A} (m : M S A) :
  (forall st, snd (m st) = st) -> silent m.
Proof.
  intros H st r st' E. specialize (H st). rewrite E in H. simpl in H.
  subst. apply no_session_since_refl.
Qed.

Lemma silent_modify f : silent (S := S) (modify f).
Proof.
  intros st r st' E. inversion E; subst.
  split; [reflexivity|]. exists []. now rewrite app_nil_r.
Qed.

Lemma silent_start {T} (e : dbE T) :
  is_save_remember_me (called e) = false -> silent (start db e).
Proof.
  intros He st r st'. unfold start.
  destruct (db T e (store st)) as [v s']. intros E. inversion E; subst.
  split; [reflexivity|]. exists [called e]. split; [reflexivity|].
  now constructor.
Qed.

Lemma silent_callback2 {T} (e : dbE T) :
  is_save_remember_me (called e) = false -> silent (callback2 db e).
Proof.
  intros He st r st'. unfold callback2.
  destruct (db T e (store st)) as [[err|v] s']; intros E;
    inversion E; subst;
    (split; [reflexivity|]; exists [called e]; split; [reflexivity|];
     now constructor).
Qed.

Ltac silence :=
  repeat first
    [ apply silent_bind; [|intros ?]
    | apply silent_modify
    | apply silent_callback2; reflexivity
    | apply silent_start; reflexivity
    | apply silent_pure; intros ?; reflexivity
    | match goal with
      | |- silent (if ?b then _ else _) => destruct b
      | |- silent (match ?x with _ => _ end) => destruct x
      end ].

Lemma silent_check_remember_me_cookie :
  silent (check_remember_me_cookie rt db).
Proof. unfold check_remember_me_cookie, lift. silence. Qed.

Lemma silent_check_passport_exists :
  silent (check_passport_exists db opts).
Proof. unfold check_passport_exists. silence. Qed.

Lemma silent_probes_started emails : silent (probes_started db emails).
Proof.
  induction emails as [|email rest IH]; cbn [probes_started]; silence.
  - exact IH.
  - exact IH.
Qed.

Lemma silent_check_existing_emails winner :
  silent (check_existing_emails db opts winner).
Proof.
  unfold check_existing_emails. silence.
  - apply silent_probes_started.
  - unfold probe_settled. silence.
Qed.

Lemma silent_maybe_create_account : silent (maybe_create_account db opts).
Proof. unfold maybe_create_account, fire_and_forget. silence. Qed.

Lemma silent_maybe_record_sign_in : silent (maybe_record_sign_in db opts).
Proof. unfold maybe_record_sign_in, fire_and_forget. silence. Qed.

Lemma silent_maybe_provision_api_key : silent (maybe_provision_api_key db).
Proof. unfold maybe_provision_api_key. silence. Qed.

Lemma silent_is_user_banned a em : silent (is_user_banned rt db a em).
Proof. unfold is_user_banned. silence. Qed.

Lemma silent_steps_before_ban_check winner :
  silent (steps_before_ban_check rt db opts winner).
Proof.
  unfold steps_before_ban_check, resolution_steps.
  apply silent_bind; [|intros _; apply silent_maybe_provision_api_key].
  apply silent_bind; [apply silent_check_remember_me_cookie | intros _].
  apply silent_bind; [apply silent_check_passport_exists | intros _].
  apply silent_bind; [apply silent_check_existing_emails | intros _].
  apply silent_bind; [apply silent_maybe_create_account | intros _].
  apply silent_maybe_record_sign_in.
Qed.
(** *** [passport_login] around the steps *)

Lemma initial_state_eq remember_me_cookie key (s : S) seed :
  initial_state opts remember_me_cookie key s seed
  = mkState (initial_locals opts remember_me_cookie key) s seed
      (if truthy key
       then [set_cookie (api_key_cookie_name (Opts.base_url opts)) None
               None]
       else [])
      [].
Proof. unfold initial_state. now destruct (truthy key). Qed.

Lemma passport_login_rejects winner remember_me_cookie key s seed e st :
  login_steps rt db opts winner
    (initial_state opts remember_me_cookie key s seed) = (Throw e, st) ->
  err_truthy e = true ->
  passport_login rt db opts winner remember_me_cookie key s seed
  = (Sent ("Error trying to login using " +:+ Opts.strategy opts
             +:+ " -- " +:+ err_text e), st).
Proof. unfold passport_login. now intros -> ->. Qed.


Lemma decoded_cookie_is_not_empty value x :
  decode_remember_me value = Ok x -> value <> "".
Proof. intros H ->. discriminate H. Qed.

Lemma append_inj_r (a b c : string) : a +:+ b = a +:+ c -> b = c.
Proof.
  induction a as [|d a IH]; simpl; intros H; [exact H|].
  injection H as H. auto.
Qed.

(** The cookie that deletes the API-key request is no session cookie. *)
Lemma initial_state_no_session remember_me_cookie key (s : S) seed :
  session_cookies (Opts.base_url opts)
    (initial_state opts remember_me_cookie key s seed) = [].
Proof.
  rewrite initial_state_eq. unfold session_cookies. cbn [jar].
  destruct (truthy key); [|reflexivity].
  cbn. case_decide as H; [|reflexivity].
  unfold api_key_cookie_name, remember_me_cookie_name in H.
  apply append_inj_r in H. discriminate H.
Qed.
End StepFacts.

(** ** Claims about the remember-me cookie *)

(** The cookie that [handle_new_sign_in] sets decodes to the first three
    fields of the stored hash and the session id, as long as the session
    id has no dollar sign (a uuid has none). *)
Lemma issued_cookie_round_trip (hash_session_id session_id : string) :
  has_char dollar session_id = false ->
  decode_remember_me (remember_me_value hash_session_id session_id)
  = Ok [at_index (split dollar hash_session_id) 0;
        at_index (split dollar hash_session_id) 1;
        at_index (split dollar hash_session_id) 2;
        session_id].
Proof.
  intros Hs. apply has_char_false in Hs.
  pose proof (split_fields_clean dollar hash_session_id) as Hx.
  unfold remember_me_value.
  set (x := split dollar hash_session_id) in *.
  pose proof (at_index_clean dollar x 0 Hx) as H0.
  pose proof (at_index_clean dollar x 1 Hx) as H1.
  pose proof (at_index_clean dollar x 2 Hx) as H2.
  change (join "$" [at_index x 0; at_index x 1; at_index x 2; session_id])
    with (at_index x 0 +:+ String dollar
            (at_index x 1 +:+ String dollar
               (at_index x 2 +:+ String dollar session_id))).
  unfold decode_remember_me.
  rewrite !split_app_sep by assumption.
  now rewrite split_whole.
Qed.

(** C8 (as amended).  Decoding the encoded token recovers the four
    fields exactly when none of them contains a dollar sign, and fails as
    badly formatted otherwise; a presented, non-empty cookie whose split
    has another field count than 4 is badly formatted, and that ends the
    attempt: the error is sent and no database call is made. *)
Theorem remember_me_token_round_trip
    (rt : Runtime) (S : Type) (db : Database S) (opts : Opts.t)
    (winner : nat) (key : option string) (s : S) (seed : nat)
    (algorithm salt iterations secret value : string) :
  value <> "" ->
  length (split dollar value) <> 4%nat ->
  decode_remember_me (encode_remember_me algorithm salt iterations secret)
  = (if has_char dollar algorithm || has_char dollar salt
        || has_char dollar iterations || has_char dollar secret
     then Throw ErrBadlyFormattedCookie
     else Ok [algorithm; salt; iterations; secret])
  /\ decode_remember_me value = Throw ErrBadlyFormattedCookie
  /\ fst (passport_login rt db opts winner (Some value) key s seed)
     = Sent ("Error trying to login using " +:+ Opts.strategy opts
               +:+ " -- Error: badly formatted remember_me cookie")
  /\ trace (snd (passport_login rt db opts winner (Some value) key s seed))
     = [].
Proof.
  intros Hne Hlen.
  assert (Hdec : decode_remember_me value = Throw ErrBadlyFormattedCookie).
  { unfold decode_remember_me.
    destruct (Nat.eqb_spec (length (split dollar value)) 4); [lia|].
    reflexivity. }
  split; [|split; [exact Hdec|]].
  - unfold decode_remember_me. rewrite length_encode.
    destruct (has_char dollar algorithm) eqn:Ha;
      [|apply has_char_false in Ha];
    (destruct (has_char dollar salt) eqn:Hs;
      [|apply has_char_false in Hs]);
    (destruct (has_char dollar iterations) eqn:Hi;
      [|apply has_char_false in Hi]);
    (destruct (has_char dollar secret) eqn:Hx;
      [|apply has_char_false in Hx]);
    unfold has_char in *; rewrite ?negb_true_iff, ?Nat.eqb_neq in *;
    simpl orb; cbv iota;
    try (destruct (Nat.eqb_spec
           (4 + (occurrences dollar algorithm + occurrences dollar salt
                 + occurrences dollar iterations
                 + occurrences dollar secret)) 4) as [E|E];
         [lia | reflexivity]).
    rewrite Ha, Hs, Hi, Hx. simpl.
    change (encode_remember_me algorithm salt iterations secret)
      with (algorithm +:+ String dollar
              (salt +:+ String dollar (iterations +:+ String dollar secret))).
    rewrite !split_app_sep by assumption.
    now rewrite split_whole.
  - assert (Hrun : login_steps rt db opts winner
                     (initial_state opts (Some value) key s seed)
                   = (Throw ErrBadlyFormattedCookie,
                      initial_state opts (Some value) key s seed)).
    { unfold login_steps. apply bind_throw.
      eapply malformed_cookie_throws;
        [now rewrite initial_state_eq | assumption | assumption]. }
    rewrite (passport_login_rejects _ _ _ _ _ _ _ _ _ _ Hrun eq_refl).
    split; [reflexivity|]. cbn [snd]. now rewrite initial_state_eq.
Qed.

Lemma remember_me_token_round_trip_witness :
  decode_remember_me (encode_remember_me "sha512" "salt" "1000" "secret")
  = Ok ["sha512"; "salt"; "1000"; "secret"]
  /\ decode_remember_me "sha512$salt$1000" = Throw ErrBadlyFormattedCookie
  /\ fst (passport_login Example.runtime MemStore.handler Example.github 0
            (Some "sha512$salt$1000") None MemStore.empty 0)
     = Sent "Error trying to login using github -- Error: badly formatted remember_me cookie"
  /\ trace (snd (passport_login Example.runtime MemStore.handler
                   Example.github 0 (Some "sha512$salt$1000") None
                   MemStore.empty 0)) = [].
Proof.
  apply (remember_me_token_round_trip Example.runtime MemStore.t
           MemStore.handler Example.github 0 None MemStore.empty 0
           "sha512" "salt" "1000" "secret" "sha512$salt$1000").
  - discriminate.
  - simpl. lia.
Defined.

(** C8, the claim as stated fails: a secret with a dollar sign in it is
    encoded into five fields, and decoding that token fails. *)
Lemma round_trip_fails_on_dollar_in_secret :
  decode_remember_me (encode_remember_me "sha512" "salt" "1000" "a$b")
  = Throw ErrBadlyFormattedCookie.
Proof. reflexivity. Qed.

(** C2 (as amended).  A presented cookie of four fields whose hash is
    computed and resolves to no stored record ends the attempt with the
    error "no valid remember_me token": the one database call made is the
    lookup of the hash, so link resolution, email check and creation do
    not run. *)
Theorem unknown_remember_me_cookie_is_fatal
    (rt : Runtime) (S : Type) (db : Database S) (opts : Opts.t)
    (winner : nat) (key : option string) (s : S) (seed : nat)
    (value : string) (x : list string) (hash : string) (s' : S) :
  decode_remember_me value = Ok x ->
  generate_hash rt (x !! 0%nat) (x !! 1%nat) (IStr (at_index x 2))
    (at_index x 3) = Ok hash ->
  db _ (get_remember_me hash) s = (inr None, s') ->
  fst (passport_login rt db opts winner (Some value) key s seed)
  = Sent ("Error trying to login using " +:+ Opts.strategy opts
            +:+ " -- Error: no valid remember_me token")
  /\ outcome (login_steps rt db opts winner
                (initial_state opts (Some value) key s seed))
     = Rejected ErrNoValidRememberMe
  /\ trace (snd (passport_login rt db opts winner (Some value) key s seed))
     = [called (get_remember_me hash)].
Proof.
  intros Hd Hh Hdb.
  assert (Hrun : login_steps rt db opts winner
                   (initial_state opts (Some value) key s seed)
                 = (Throw ErrNoValidRememberMe,
                    answered (get_remember_me hash) s'
                      (initial_state opts (Some value) key s seed))).
  { unfold login_steps. apply bind_throw.
    eapply unknown_cookie_throws; eauto using decoded_cookie_is_not_empty;
      now rewrite initial_state_eq. }
  rewrite (passport_login_rejects _ _ _ _ _ _ _ _ _ _ Hrun eq_refl), Hrun.
  repeat split. cbn [snd answered trace]. now rewrite initial_state_eq.
Qed.

Lemma unknown_remember_me_cookie_is_fatal_witness :
  fst (passport_login Example.runtime MemStore.handler Example.github 0
         (Some Example.cookie) None MemStore.empty 0)
  = Sent "Error trying to login using github -- Error: no valid remember_me token"
  /\ outcome (login_steps Example.runtime MemStore.handler Example.github 0
                (initial_state Example.github (Some Example.cookie) None
                   MemStore.empty 0))
     = Rejected ErrNoValidRememberMe
  /\ trace (snd (passport_login Example.runtime MemStore.handler
                   Example.github 0 (Some Example.cookie) None
                   MemStore.empty 0))
     = [called (get_remember_me Example.cookie_hash)].
Proof.
  apply (unknown_remember_me_cookie_is_fatal Example.runtime MemStore.t
           MemStore.handler Example.github 0 None MemStore.empty 0
           Example.cookie ["sha512"; "salt"; "2"; "secret"]
           Example.cookie_hash MemStore.empty);
    reflexivity.
Defined.

(** C2, the claim as stated fails: with a well-formed cookie that no
    record answers, the attempt fails and the link is never looked up. *)
Lemma unknown_cookie_ends_the_attempt :
  passport_login Example.runtime MemStore.handler Example.github 0
    (Some Example.cookie) None MemStore.empty 0
  = (Sent "Error trying to login using github -- Error: no valid remember_me token",
     mkState (initial_locals Example.github (Some Example.cookie) None)
       MemStore.empty 0 []
       [called (get_remember_me Example.cookie_hash)]).
Proof. reflexivity. Qed.

(** ** Claims about the resolution of the link *)

Section LinkClaims.
Context (rt : Runtime) {S : Type} (db : Database S) (opts : Opts.t).
Context (winner : nat) (key : option string) (s : S) (seed : nat).
Context (value : string) (x : list string) (hash : string).
Context (m : SignedInMesg) (s1 : S).

(** The state after a live cookie has authenticated its owner. *)
Lemma login_steps_with_live_cookie :
  decode_remember_me value = Ok x ->
  generate_hash rt (x !! 0%nat) (x !! 1%nat) (IStr (at_index x 2))
    (at_index x 3) = Ok hash ->
  db _ (get_remember_me hash) s = (inr (Some m), s1) ->
  check_remember_me_cookie rt db
    (initial_state opts (Some value) key s seed)
  = (Ok tt,
     with_locals (Locals.authenticated (sm_account_id m))
       (answered (get_remember_me hash) s1
          (initial_state opts (Some value) key s seed))).
Proof.
  intros Hd Hh Hdb.
  eapply live_cookie_authenticates;
    eauto using decoded_cookie_is_not_empty; now rewrite initial_state_eq.
Qed.

(** C5.  When the link resolves to an account [a] and a live remember-me
    cookie authenticates the caller as another account, the attempt is
    rejected with the identity-conflict error; the two lookups are the
    only database calls (no link is created or changed, no remember-me
    record is saved) and the response sets no session cookie. *)
Theorem linked_to_another_account_is_rejected (a : string) (s2 : S) :
  decode_remember_me value = Ok x ->
  generate_hash rt (x !! 0%nat) (x !! 1%nat) (IStr (at_index x 2))
    (at_index x 3) = Ok hash ->
  db _ (get_remember_me hash) s = (inr (Some m), s1) ->
  db _ (the_passport opts) s1 = (inr (Some a), s2) ->
  a <> "" ->
  a <> sm_account_id m ->
  fst (passport_login rt db opts winner (Some value) key s seed)
  = Sent ("Error trying to login using " +:+ Opts.strategy opts
            +:+ " -- Error: "
            +:+ err_message (ErrPassportConflict (Opts.strategy opts)))
  /\ outcome (login_steps rt db opts winner
                (initial_state opts (Some value) key s seed))
     = Rejected (ErrPassportConflict (Opts.strategy opts))
  /\ trace (snd (passport_login rt db opts winner (Some value) key s seed))
     = [called (get_remember_me hash); called (the_passport opts)]
  /\ store (snd (passport_login rt db opts winner (Some value) key s seed))
     = s2
  /\ session_cookies (Opts.base_url opts)
       (snd (passport_login rt db opts winner (Some value) key s seed))
     = [].
Proof.
  intros Hd Hh Hdb Hp Ha Hab.
  pose proof (login_steps_with_live_cookie Hd Hh Hdb) as Hc.
  set (st1 := with_locals (Locals.authenticated (sm_account_id m))
                (answered (get_remember_me hash) s1
                   (initial_state opts (Some value) key s seed))) in *.
  assert (Hrun : login_steps rt db opts winner
                   (initial_state opts (Some value) key s seed)
                 = (Throw (ErrPassportConflict (Opts.strategy opts)),
                    answered (the_passport opts) s2 st1)).
  { unfold login_steps. rewrite (bind_ok _ _ _ _ _ Hc).
    apply bind_throw.
    apply passport_of_another_account_throws
      with (a := a) (b := sm_account_id m); auto. }
  rewrite (passport_login_rejects _ _ _ _ _ _ _ _ _ _ Hrun eq_refl), Hrun.
  repeat split.
  - subst st1. cbn [snd answered with_locals trace].
    now rewrite initial_state_eq.
  - subst st1. unfold session_cookies.
    cbn [snd answered with_locals jar].
    apply initial_state_no_session.
Qed.

(** C4 (as amended).  When the link is not found, the caller is
    authenticated by a live cookie, and [create_passport] fails, the
    error of [create_passport] is the error of the attempt: it is sent to
    the client, and the link is not looked up a second time. *)
Theorem link_creation_error_is_not_recovered
    (r : option string) (s2 : S) (err : string) (s3 : S) :
  decode_remember_me value = Ok x ->
  generate_hash rt (x !! 0%nat) (x !! 1%nat) (IStr (at_index x 2))
    (at_index x 3) = Ok hash ->
  db _ (get_remember_me hash) s = (inr (Some m), s1) ->
  db _ (the_passport opts) s1 = (inr r, s2) ->
  truthy r = false ->
  db _ (the_new_passport opts (sm_account_id m)) s2 = (inl err, s3) ->
  err <> "" ->
  fst (passport_login rt db opts winner (Some value) key s seed)
  = Sent ("Error trying to login using " +:+ Opts.strategy opts
            +:+ " -- " +:+ err)
  /\ outcome (login_steps rt db opts winner
                (initial_state opts (Some value) key s seed))
     = Rejected (ErrDb err)
  /\ trace (snd (passport_login rt db opts winner (Some value) key s seed))
     = [called (get_remember_me hash); called (the_passport opts);
        called (the_new_passport opts (sm_account_id m))].
Proof.
  intros Hd Hh Hdb Hp Hr Hc' He.
  pose proof (login_steps_with_live_cookie Hd Hh Hdb) as Hc.
  set (st1 := with_locals (Locals.authenticated (sm_account_id m))
                (answered (get_remember_me hash) s1
                   (initial_state opts (Some value) key s seed))) in *.
  assert (Hrun : login_steps rt db opts winner
                   (initial_state opts (Some value) key s seed)
                 = (Throw (ErrDb err),
                    answered (the_new_passport opts (sm_account_id m)) s3
                      (answered (the_passport opts) s2 st1))).
  { unfold login_steps. rewrite (bind_ok _ _ _ _ _ Hc).
    apply bind_throw.
    eapply passport_creation_error_throws; eauto. }
  assert (Ht : err_truthy (ErrDb err) = true).
  { simpl. now destruct (String.eqb_spec err ""). }
  rewrite (passport_login_rejects _ _ _ _ _ _ _ _ _ _ Hrun Ht), Hrun.
  repeat split.
  subst st1. cbn [snd answered with_locals trace].
  now rewrite initial_state_eq.
Qed.
End LinkClaims.

Lemma linked_to_another_account_is_rejected_witness :
  fst (passport_login Example.runtime MemStore.handler Example.github 0
         (Some Example.cookie) None Example.linked_elsewhere 0)
  = Sent ("Error trying to login using github -- Error: "
            +:+ err_message (ErrPassportConflict "github"))
  /\ outcome (login_steps Example.runtime MemStore.handler Example.github 0
                (initial_state Example.github (Some Example.cookie) None
                   Example.linked_elsewhere 0))
     = Rejected (ErrPassportConflict "github")
  /\ trace (snd (passport_login Example.runtime MemStore.handler
                   Example.github 0 (Some Example.cookie) None
                   Example.linked_elsewhere 0))
     = [called (get_remember_me Example.cookie_hash);
        called (the_passport Example.github)]
  /\ store (snd (passport_login Example.runtime MemStore.handler
                   Example.github 0 (Some Example.cookie) None
                   Example.linked_elsewhere 0))
     = Example.linked_elsewhere
  /\ session_cookies ""
       (snd (passport_login Example.runtime MemStore.handler Example.github
               0 (Some Example.cookie) None Example.linked_elsewhere 0))
     = [].
Proof.
  apply (linked_to_another_account_is_rejected Example.runtime
           MemStore.handler Example.github 0 None Example.linked_elsewhere
           0 Example.cookie ["sha512"; "salt"; "2"; "secret"]
           Example.cookie_hash Example.me Example.linked_elsewhere
           "acct-other" Example.linked_elsewhere);
    (reflexivity || discriminate).
Defined.

Lemma link_creation_error_is_not_recovered_witness :
  fst (passport_login Example.runtime (MemStore.racing "acct-rival")
         Example.github 0 (Some Example.cookie) None
         Example.signed_in_store 0)
  = Sent "Error trying to login using github -- AlreadyExists"
  /\ outcome (login_steps Example.runtime (MemStore.racing "acct-rival")
                Example.github 0
                (initial_state Example.github (Some Example.cookie) None
                   Example.signed_in_store 0))
     = Rejected (ErrDb "AlreadyExists")
  /\ trace (snd (passport_login Example.runtime
                   (MemStore.racing "acct-rival") Example.github 0
                   (Some Example.cookie) None Example.signed_in_store 0))
     = [called (get_remember_me Example.cookie_hash);
        called (the_passport Example.github);
        called (the_new_passport Example.github "acct-me")].
Proof.
  apply (link_creation_error_is_not_recovered Example.runtime
           (MemStore.racing "acct-rival") Example.github 0 None
           Example.signed_in_store 0 Example.cookie
           ["sha512"; "salt"; "2"; "secret"] Example.cookie_hash Example.me
           Example.signed_in_store None
           (MemStore.mk {[("github", "42") := "acct-rival"]} ∅
              {[Example.cookie_hash := Example.me]} ∅
              {| help_email := None |} ∅ 0)
           "AlreadyExists"
           (MemStore.mk {[("github", "42") := "acct-rival"]} ∅
              {[Example.cookie_hash := Example.me]} ∅
              {| help_email := None |} ∅ 0));
    (reflexivity || discriminate).
Defined.

(** C4, the claim as stated fails: a concurrent request links the
    identity between this request's lookup and its [create_passport];
    the attempt ends with the datastore's error. *)
Lemma lost_race_ends_the_attempt :
  fst (passport_login Example.runtime (MemStore.racing "acct-rival")
         Example.github 0 (Some Example.cookie) None
         Example.signed_in_store 0)
  = Sent "Error trying to login using github -- AlreadyExists"
  /\ outcome (login_steps Example.runtime (MemStore.racing "acct-rival")
                Example.github 0
                (initial_state Example.github (Some Example.cookie) None
                   Example.signed_in_store 0))
     = Rejected (ErrDb "AlreadyExists").
Proof. split; reflexivity. Qed.

(** ** Claims about the email check and the creation of the account *)

(** C1 (the code departs from the claim).  When the email check is
    reached with no account yet and a non-empty email list, and no probe
    finds an account, the check does not fall through to the creation of
    the account: the probe answered first throws "check_email: no
    _account_id", whichever probe that is, and the locals are as
    before. *)
Theorem no_match_email_check_throws
    (S : Type) (db : Database S) (opts : Opts.t) (winner : nat)
    (st : State S) (emails : list string)
    (replies : list (string * (string + option string))) (st1 : State S) :
  Opts.emails opts = Some emails ->
  emails <> [] ->
  truthy (Locals.account_id (locals st)) = false ->
  probes_started db emails st = (Ok replies, st1) ->
  Forall no_match replies ->
  check_existing_emails db opts winner st
  = (Throw ErrCheckEmailNoAccount, st1)
  /\ locals st1 = locals st.
Proof.
  intros He Hne Hf Hrun Hall.
  destruct (probes_all_started db emails st Hf)
    as (rs & calls & st' & Hrun' & Hlen & Hloc & _).
  rewrite Hrun in Hrun'. injection Hrun' as <- <-.
  split; [|exact Hloc].
  unfold check_existing_emails. rewrite He.
  unfold bind at 1, get_locals. rewrite Hf.
  rewrite (bind_ok _ _ _ _ _ Hrun).
  assert (Hin : (winner mod length replies < length replies)%nat).
  { apply Nat.mod_upper_bound. rewrite Hlen. now destruct emails. }
  destruct (lookup_lt_is_Some_2 replies _ Hin) as [[em r] Hr].
  rewrite Hr.
  rewrite Forall_forall in Hall.
  destruct (Hall (em, r)) as (a & Ha & Hta).
  { eapply list_elem_of_lookup_2, Hr. }
  simpl in Ha. subst r. unfold probe_settled. unfold_monad.
  now rewrite Hloc, Hf, Hta.
Qed.

Lemma no_match_email_check_throws_witness :
  check_existing_emails MemStore.handler Example.github 0
    (initial_state Example.github None None MemStore.empty 0)
  = (Throw ErrCheckEmailNoAccount,
     answered (account_exists "a@x.com") MemStore.empty
       (initial_state Example.github None None MemStore.empty 0))
  /\ locals (answered (account_exists "a@x.com") MemStore.empty
               (initial_state Example.github None None MemStore.empty 0))
     = locals (initial_state Example.github None None MemStore.empty 0).
Proof.
  apply (no_match_email_check_throws MemStore.t MemStore.handler
           Example.github 0
           (initial_state Example.github None None MemStore.empty 0)
           ["a@x.com"] [("a@x.com", inr None)]).
  - reflexivity.
  - discriminate.
  - reflexivity.
  - reflexivity.
  - repeat constructor. now exists None.
Defined.

(** The first scenario of the specification: a new identity with one
    email that no account has, and no cookie.  No account is created and
    no cookie is set; the client is sent the error of the email check. *)
Lemma new_user_with_email_is_turned_away :
  passport_login Example.runtime MemStore.handler Example.github 0 None
    None MemStore.empty 0
  = (Sent "Error trying to login using github -- Error: check_email: no _account_id",
     mkState (initial_locals Example.github None None) MemStore.empty 0 []
       [called (the_passport Example.github);
        called (account_exists "a@x.com")]).
Proof. reflexivity. Qed.

(** ** Claims about the API key and the ban check *)

Section BanClaims.
Context (rt : Runtime) {S : Type} (db : Database S) (opts : Opts.t).
Context (winner : nat).


(** C6 (as amended).  When the steps before the ban check have returned
    (the account is settled and, where an API key was asked for, the
    API-key step has succeeded) and the database says that the account is
    banned, the attempt is rejected: with the banned error, whose message
    ends with the support email of the server settings, or [HELP_EMAIL]
    when the settings have none, if the settings can be read, and with
    the error of that read otherwise.  After the steps that created or
    linked anything only the ban and the settings are read, so nothing is
    undone; no remember-me record is saved and no cookie is set. *)
Theorem ban_overrides_the_outcome
    (remember_me_cookie key : option string) (s : S) (seed : nat)
    (st1 : State S) (s2 : S) (reply : string + Settings) (s3 : S) :
  steps_before_ban_check rt db opts winner
    (initial_state opts remember_me_cookie key s seed) = (Ok tt, st1) ->
  db _ (is_banned_user (Locals.account_id (locals st1))) (store st1)
  = (inr true, s2) ->
  db _ get_server_settings_cached s2 = (reply, s3) ->
  outcome (login_steps rt db opts winner
             (initial_state opts remember_me_cookie key s seed))
  = Rejected match reply with
             | inr settings =>
                 ErrBanned (Locals.account_id (locals st1))
                   (Locals.email_address (locals st1))
                   (support_email rt settings)
             | inl err => ErrDb err
             end
  /\ match reply with
     | inr settings =>
         fst (passport_login rt db opts winner remember_me_cookie key s
                seed)
         = Sent ("Error trying to login using " +:+ Opts.strategy opts
                   +:+ " -- Error: User (account_id="
                   +:+ show (Locals.account_id (locals st1))
                   +:+ ", email_address="
                   +:+ show (Locals.email_address (locals st1))
                   +:+ ") is BANNED. If this is a mistake, please contact "
                   +:+ (if truthy (help_email settings)
                        then default "" (help_email settings)
                        else HELP_EMAIL rt)
                   +:+ ".")
     | inl err =>
         err <> "" ->
         fst (passport_login rt db opts winner remember_me_cookie key s
                seed)
         = Sent ("Error trying to login using " +:+ Opts.strategy opts
                   +:+ " -- " +:+ err)
     end
  /\ trace (snd (passport_login rt db opts winner remember_me_cookie key s
                   seed))
     = (trace st1
        ++ [called (is_banned_user (Locals.account_id (locals st1)));
            called get_server_settings_cached])%list
  /\ store (snd (passport_login rt db opts winner remember_me_cookie key s
                   seed)) = s3
  /\ jar (snd (passport_login rt db opts winner remember_me_cookie key s
                 seed))
     = jar (initial_state opts remember_me_cookie key s seed)
  /\ session_cookies (Opts.base_url opts)
       (snd (passport_login rt db opts winner remember_me_cookie key s
               seed)) = []
  /\ existsb is_save_remember_me
       (trace (snd (passport_login rt db opts winner remember_me_cookie key
                      s seed))) = false.
Proof.
  intros Hpre Hban Hset.
  set (st0 := initial_state opts remember_me_cookie key s seed) in *.
  set (e := match reply with
            | inr settings =>
                ErrBanned (Locals.account_id (locals st1))
                  (Locals.email_address (locals st1))
                  (support_email rt settings)
            | inl err => ErrDb err
            end).
  assert (Hrun : login_steps rt db opts winner st0
                 = (Throw e,
                    answered get_server_settings_cached s3
                      (answered
                         (is_banned_user (Locals.account_id (locals st1)))
                         s2 st1))).
  { rewrite login_steps_before_ban_check, (bind_ok _ _ _ _ _ Hpre).
    unfold after_api_key, bind at 1, get_locals.
    apply bind_throw. unfold is_user_banned. unfold_monad.
    rewrite Hban. cbn [answered store]. rewrite Hset.
    subst e. now destruct reply. }
  assert (Hfinal : snd (passport_login rt db opts winner remember_me_cookie
                          key s seed)
                   = answered get_server_settings_cached s3
                       (answered
                          (is_banned_user (Locals.account_id (locals st1)))
                          s2 st1)).
  { unfold passport_login. fold st0. rewrite Hrun.
    now destruct (err_truthy e). }
  rewrite Hfinal, Hrun.
  destruct (silent_steps_before_ban_check rt db opts winner _ _ _ Hpre)
    as [Hjar (calls & Htr & Hcalls)].
  assert (Ht0 : trace st0 = []) by (subst st0; now rewrite initial_state_eq).
  rewrite Ht0 in Htr. cbn [app] in Htr.
  split; [reflexivity|]. split.
  { subst e. destruct reply as [err|settings].
    - intros Hne.
      rewrite (passport_login_rejects rt db opts winner _ _ _ _ _ _ Hrun);
        [reflexivity|].
      cbn. now destruct (String.eqb_spec err "").
    - now rewrite (passport_login_rejects rt db opts winner _ _ _ _ _ _ Hrun
                     eq_refl). }
  repeat split.
  - cbn [answered trace]. now rewrite <- app_assoc.
  - cbn [answered jar]. exact Hjar.
  - unfold session_cookies. cbn [answered jar]. rewrite Hjar.
    apply initial_state_no_session.
  - cbn [answered trace]. rewrite <- app_assoc, Htr.
    rewrite existsb_app. cbn [existsb is_save_remember_me called projT2].
    rewrite orb_false_r.
    clear -Hcalls. induction Hcalls as [|c cs Hc _ IH]; [reflexivity|].
    cbn [existsb]. now rewrite Hc, IH.
Qed.
End BanClaims.



Lemma ban_overrides_the_outcome_witness :
  outcome (login_steps Example.runtime MemStore.handler Example.github 0
             (initial_state Example.github (Some Example.cookie) None
                Example.banned_signed_in_store 0))
  = Rejected (ErrBanned (Some "acct-me") None "help@theme.example")
  /\ fst (passport_login Example.runtime MemStore.handler Example.github 0
            (Some Example.cookie) None Example.banned_signed_in_store 0)
     = Sent "Error trying to login using github -- Error: User (account_id=acct-me, email_address=undefined) is BANNED. If this is a mistake, please contact help@theme.example."
  /\ trace (snd (passport_login Example.runtime MemStore.handler
                   Example.github 0 (Some Example.cookie) None
                   Example.banned_signed_in_store 0))
     = [called (get_remember_me Example.cookie_hash);
        called (the_passport Example.github);
        called (the_new_passport Example.github "acct-me");
        called (record_sign_in "10.0.0.1" true None (Some "acct-me"));
        called (is_banned_user (Some "acct-me"));
        called get_server_settings_cached]
  /\ store (snd (passport_login Example.runtime MemStore.handler
                   Example.github 0 (Some Example.cookie) None
                   Example.banned_signed_in_store 0))
     = MemStore.mk {[("github", "42") := "acct-me"]} ∅
         {[Example.cookie_hash := Example.me]} {["acct-me"]}
         {| help_email := None |} ∅ 0
  /\ jar (snd (passport_login Example.runtime MemStore.handler
                 Example.github 0 (Some Example.cookie) None
                 Example.banned_signed_in_store 0))
     = jar (initial_state Example.github (Some Example.cookie) None
              Example.banned_signed_in_store 0)
  /\ session_cookies ""
       (snd (passport_login Example.runtime MemStore.handler Example.github
               0 (Some Example.cookie) None Example.banned_signed_in_store
               0)) = []
  /\ existsb is_save_remember_me
       (trace (snd (passport_login Example.runtime MemStore.handler
                      Example.github 0 (Some Example.cookie) None
                      Example.banned_signed_in_store 0))) = false.
Proof.
  apply (ban_overrides_the_outcome Example.runtime MemStore.handler
           Example.github 0 (Some Example.cookie) None
           Example.banned_signed_in_store 0
           (snd (steps_before_ban_check Example.runtime MemStore.handler
                   Example.github 0
                   (initial_state Example.github (Some Example.cookie) None
                      Example.banned_signed_in_store 0)))
           (MemStore.mk {[("github", "42") := "acct-me"]} ∅
              {[Example.cookie_hash := Example.me]} {["acct-me"]}
              {| help_email := None |} ∅ 0)
           (inr {| help_email := None |})
           (MemStore.mk {[("github", "42") := "acct-me"]} ∅
              {[Example.cookie_hash := Example.me]} {["acct-me"]}
              {| help_email := None |} ∅ 0));
    reflexivity.
Defined.

(** The claim without its provisos fails where the settings cannot be
    read: the account is settled and banned, and the attempt is rejected
    with the error of the read, not with the banned error, in a message
    that names no support email. *)
Lemma ban_with_unreadable_settings_is_another_error :
  passport_login Example.runtime MemStore.without_settings Example.github 0
    None None Example.banned_store 0
  = (Sent "Error trying to login using github -- settings unavailable",
     mkState
       (Locals.set_account_id (Some "acct-A")
          (initial_locals Example.github None None))
       Example.banned_store 0 []
       [called (the_passport Example.github);
        called (record_sign_in "10.0.0.1" false None (Some "acct-A"));
        called (is_banned_user (Some "acct-A"));
        called get_server_settings_cached])
  /\ outcome (login_steps Example.runtime MemStore.without_settings
                Example.github 0
                (initial_state Example.github None None
                   Example.banned_store 0))
     = Rejected (ErrDb "settings unavailable")
  /\ MemStore.handler _ (is_banned_user (Some "acct-A"))
       Example.banned_store
     = (inr true, Example.banned_store).
Proof. repeat split. Qed.

(** ** The email of the locals before the creation *)

Section EmailUnset.
Context (rt : Runtime) {S : Type} (db : Database S) (opts : Opts.t).

Lemma keeps_email_bind {A B} (m : M S A) (k : A -> M S B) :
  keeps_email m -> (forall a, keeps_email (k a)) -> keeps_email (bind m k).
Proof.
  intros Hm Hk st b st'. unfold bind.
  destruct (m st) as [[a|e] st1] eqn:E; [|discriminate].
  intros H. rewrite (Hk _ _ _ _ H). eapply Hm, E.
Qed.

Lemma keeps_email_same {A} (m : M S A) :
  (forall st, locals (snd (m st)) = locals st) -> keeps_email m.
Proof.
  intros H st a st' E. specialize (H st). rewrite E in H. simpl in H.
  now rewrite H.
Qed.

Lemma keeps_email_modify f :
  (forall l, Locals.email_address (f l) = Locals.email_address l) ->
  keeps_email (S := S) (modify f).
Proof. intros H st a st' E. inversion E; subst. apply H. Qed.

Lemma keeps_email_throw {A} e : keeps_email (S := S) (A := A) (throw e).
Proof. intros st a st' E. discriminate E. Qed.

Lemma keeps_email_callback2 {T} (e : dbE T) : keeps_email (callback2 db e).
Proof.
  apply keeps_email_same. intros st. unfold callback2.
  now destruct (db T e (store st)) as [[err|v] s'].
Qed.

Lemma keeps_email_start {T} (e : dbE T) : keeps_email (start db e).
Proof.
  apply keeps_email_same. intros st. unfold start.
  now destruct (db T e (store st)) as [v s'].
Qed.

Ltac keep :=
  repeat first
    [ apply keeps_email_bind; [|intros ?]
    | apply keeps_email_modify; intros ?; reflexivity
    | apply keeps_email_throw
    | apply keeps_email_callback2
    | apply keeps_email_start
    | apply keeps_email_same; intros ?; reflexivity
    | match goal with
      | |- keeps_email (if ?b then _ else _) => destruct b
      | |- keeps_email (match ?x with _ => _ end) => destruct x
      end ].

Lemma keeps_email_check_remember_me_cookie :
  keeps_email (check_remember_me_cookie rt db).
Proof.
  unfold check_remember_me_cookie, lift. keep.
Qed.

Lemma keeps_email_check_passport_exists :
  keeps_email (check_passport_exists db opts).
Proof. unfold check_passport_exists. keep. Qed.

Lemma keeps_email_probes_started emails :
  keeps_email (probes_started db emails).
Proof.
  induction emails as [|email rest IH]; cbn [probes_started]; keep;
    exact IH.
Qed.

(** A probe that records the email of a match throws, so a probe that
    returns has recorded nothing. *)
Lemma keeps_email_probe_settled email reply :
  keeps_email (probe_settled (S := S) opts email reply).
Proof.
  unfold probe_settled. destruct reply as [err|a]; [keep|].
  apply keeps_email_bind; [keep | intros l].
  destruct (truthy (Locals.account_id l)); [keep|].
  destruct (negb (truthy a)); [keep|].
  intros st r st' E. unfold bind, modify, throw in E. discriminate E.
Qed.

Lemma keeps_email_check_existing_emails winner :
  keeps_email (check_existing_emails db opts winner).
Proof.
  unfold check_existing_emails. keep.
  - apply keeps_email_probes_started.
  - apply keeps_email_probe_settled.
Qed.

(** In every attempt, [maybe_create_account] is reached with no email
    recorded in the locals. *)
Lemma email_unset_until_creation winner remember_me_cookie key s seed st :
  bind (check_remember_me_cookie rt db)
    (fun _ => bind (check_passport_exists db opts)
                (fun _ => check_existing_emails db opts winner))
    (initial_state opts remember_me_cookie key s seed) = (Ok tt, st) ->
  Locals.email_address (locals st) = None.
Proof.
  intros H.
  assert (K : keeps_email
                (bind (check_remember_me_cookie rt db)
                   (fun _ => bind (check_passport_exists db opts)
                               (fun _ => check_existing_emails db opts
                                           winner)))).
  { apply keeps_email_bind;
      [apply keeps_email_check_remember_me_cookie | intros _].
    apply keeps_email_bind;
      [apply keeps_email_check_passport_exists | intros _].
    apply keeps_email_check_existing_emails. }
  rewrite (K _ _ _ H). now rewrite initial_state_eq.
Qed.
End EmailUnset.

(** ** Claims about the created account *)

(** C10 (the code departs from the claim).  Whenever the creation of the
    account is reached, with no account settled yet, no account is
    created, with or without an email: [create_account] reads the
    database off the options of [passport_login], which have none, so a
    TypeError is thrown before any call is made.  The first email of
    the list has by then been written to the locals, and nothing else
    has changed: no account id, no mark of a new account, no call. *)
Theorem account_creation_throws_before_any_call
    (S : Type) (db : Database S) (opts : Opts.t) (st : State S) :
  truthy (Locals.account_id (locals st)) = false ->
  outcome (maybe_create_account db opts st)
  = Rejected ErrOptsDatabaseUndefined
  /\ err_text ErrOptsDatabaseUndefined
     = "TypeError: Cannot read property 'create_account' of undefined"
  /\ trace (snd (maybe_create_account db opts st)) = trace st
  /\ store (snd (maybe_create_account db opts st)) = store st
  /\ Locals.account_id (locals (snd (maybe_create_account db opts st)))
     = Locals.account_id (locals st)
  /\ Locals.new_account_created
       (locals (snd (maybe_create_account db opts st)))
     = Locals.new_account_created (locals st)
  /\ Locals.email_address (locals (snd (maybe_create_account db opts st)))
     = match Opts.emails opts with
       | Some es => head es
       | None => Locals.email_address (locals st)
       end.
Proof.
  intros Hf. unfold maybe_create_account, create_account_of_opts.
  unfold_monad. rewrite Hf.
  destruct (Opts.emails opts) as [es|]; cbn; repeat split.
Qed.

Lemma account_creation_throws_before_any_call_witness :
  outcome (maybe_create_account MemStore.handler Example.github
             (initial_state Example.github None None MemStore.empty 0))
  = Rejected ErrOptsDatabaseUndefined
  /\ err_text ErrOptsDatabaseUndefined
     = "TypeError: Cannot read property 'create_account' of undefined"
  /\ trace (snd (maybe_create_account MemStore.handler Example.github
                   (initial_state Example.github None None MemStore.empty
                      0)))
     = trace (initial_state Example.github None None MemStore.empty 0)
  /\ store (snd (maybe_create_account MemStore.handler Example.github
                   (initial_state Example.github None None MemStore.empty
                      0)))
     = store (initial_state Example.github None None MemStore.empty 0)
  /\ Locals.account_id
       (locals (snd (maybe_create_account MemStore.handler Example.github
                       (initial_state Example.github None None
                          MemStore.empty 0))))
     = Locals.account_id
         (locals (initial_state Example.github None None MemStore.empty 0))
  /\ Locals.new_account_created
       (locals (snd (maybe_create_account MemStore.handler Example.github
                       (initial_state Example.github None None
                          MemStore.empty 0))))
     = Locals.new_account_created
         (locals (initial_state Example.github None None MemStore.empty 0))
  /\ Locals.email_address
       (locals (snd (maybe_create_account MemStore.handler Example.github
                       (initial_state Example.github None None
                          MemStore.empty 0))))
     = Some "a@x.com".
Proof.
  apply (account_creation_throws_before_any_call MemStore.t
           MemStore.handler Example.github
           (initial_state Example.github None None MemStore.empty 0)).
  reflexivity.
Defined.

(** A new identity with no email, no cookie and no link: the attempt
    reaches the creation of the account, and the client is sent the
    TypeError; the database holds no account and no link afterwards and
    no cookie is set. *)
Lemma new_identity_without_email_is_turned_away :
  passport_login Example.runtime MemStore.handler Example.github_no_email 0
    None None MemStore.empty 0
  = (Sent "Error trying to login using github -- TypeError: Cannot read property 'create_account' of undefined",
     mkState (initial_locals Example.github_no_email None None)
       MemStore.empty 0 [] [called (the_passport Example.github_no_email)]).
Proof. reflexivity. Qed.

(** ** Claims about signing in again *)

Lemma existsb_none_of {A} (f g : A -> bool) (l : list A) :
  Forall (fun c => f c = true) l ->
  (forall c, f c = true -> g c = false) ->
  existsb g l = false.
Proof.
  intros Hl Hfg. induction Hl as [|c cs Hc _ IH]; [reflexivity|].
  cbn [existsb]. now rewrite (Hfg c Hc), IH.
Qed.

Section ReloginClaims.
Context (rt : Runtime) {S : Type} (db : Database S) (opts : Opts.t).
Context (winner : nat) (remember_me_cookie key : option string).
Context (s : S) (seed : nat).

(** The API-key step changes the key, the action and the target of the
    locals, and calls nothing but [api_key_action]. *)
Lemma api_key_step_keeps (st st' : State S) :
  maybe_provision_api_key db st = (Ok tt, st') ->
  Locals.account_id (locals st') = Locals.account_id (locals st)
  /\ Locals.email_address (locals st') = Locals.email_address (locals st)
  /\ Locals.has_valid_remember_me (locals st')
     = Locals.has_valid_remember_me (locals st)
  /\ Locals.new_account_created (locals st')
     = Locals.new_account_created (locals st)
  /\ jar st' = jar st
  /\ draws st' = draws st
  /\ exists calls,
       trace st' = (trace st ++ calls)%list
       /\ Forall (fun c => is_api_key_action c = true) calls.
Proof.
  unfold maybe_provision_api_key. unfold_monad.
  destruct (truthy (Locals.get_api_key (locals st))); cbn [negb].
  - state_simpl.
    destruct (db _ (api_key_action (Locals.account_id (locals st))
                      (Locals.first_action (locals st))) (store st))
      as [[err|k] s2]; [discriminate|].
    state_simpl. destruct (truthy k); cbn [negb]; state_simpl.
    + intros H. inversion H; subst; clear H. cbn.
      repeat split. eexists. split; [reflexivity|]. repeat constructor.
    + destruct (db _ (api_key_action (Locals.account_id (locals st))
                        regenerate) s2) as [[err|k'] s3]; [discriminate|].
      intros H. inversion H; subst; clear H. cbn.
      repeat split. eexists. rewrite <- app_assoc.
      split; [reflexivity|]. repeat constructor.
  - intros H. inversion H; subst. repeat split.
    exists []. now rewrite app_nil_r.
Qed.


End ReloginClaims.



(** C7, the claim as stated fails: [iterations = -3] does not behave
    as 1.  The loop runs for i = 1, 0, -1, -2, -3, five rounds, and the
    number printed is -3. *)
Lemma negative_iterations_are_not_one :
  generate_hash Example.runtime (Some "sha512") (Some "s") (INum (-3)) "p"
  = Ok "sha512$s$-3$hmac(s,hmac(s,hmac(s,hmac(s,hmac(s,p)))))"
  /\ generate_hash Example.runtime (Some "sha512") (Some "s") (INum 1) "p"
     = Ok "sha512$s$1$hmac(s,p)"
  /\ generate_hash Example.runtime (Some "sha512") (Some "s") (INum (-3)) "p"
     <> generate_hash Example.runtime (Some "sha512") (Some "s") (INum 1)
          "p".
Proof. repeat split. discriminate. Qed.

(** ** The scenarios of the specification, run on the in-memory store *)

(** A caller with a live cookie presents a new identity: the link is
    created for the caller's account and no new cookie is set. *)
Lemma new_identity_is_linked_to_the_caller :
  fst (passport_login Example.runtime MemStore.handler Example.github 0
         (Some Example.cookie) None Example.signed_in_store 0) = NoResponse
  /\ outcome (login_steps Example.runtime MemStore.handler Example.github 0
                (initial_state Example.github (Some Example.cookie) None
                   Example.signed_in_store 0))
     = Linked (Some "acct-me")
  /\ MemStore.links
       (store (snd (passport_login Example.runtime MemStore.handler
                      Example.github 0 (Some Example.cookie) None
                      Example.signed_in_store 0))) !! ("github", "42")
     = Some "acct-me"
  /\ jar (snd (passport_login Example.runtime MemStore.handler
                 Example.github 0 (Some Example.cookie) None
                 Example.signed_in_store 0)) = [].
Proof. repeat split. Qed.

(** Another provider asserts an email that an account has: rejected,
    naming the email. *)
Lemma known_email_under_another_strategy_is_rejected :
  fst (passport_login Example.runtime MemStore.handler Example.google 0
         None None Example.store_with_email 0)
  = Sent "Error trying to login using google -- Error: There is already an account with email address a@x.com; please sign in using that email account, then link google to it in account settings."
  /\ store (snd (passport_login Example.runtime MemStore.handler
                   Example.google 0 None None Example.store_with_email 0))
     = Example.store_with_email.
Proof. repeat split. Qed.

(** Signing in a second time, from the store the first sign-in left:
    the link is as before and the same account is signed in. *)
Lemma second_relogin_signs_in_the_same_account :
  MemStore.links
    (store (snd (passport_login Example.runtime MemStore.handler
                   Example.github 0 None None Example.linked_store 0)))
  = MemStore.links Example.linked_store
  /\ outcome (login_steps Example.runtime MemStore.handler Example.github 0
                (initial_state Example.github None None
                   (store (snd (passport_login Example.runtime
                                  MemStore.handler Example.github 0 None
                                  None Example.linked_store 0))) 2))
     = SignedIn (Some "acct-A").
Proof. repeat split. Qed.

(** * Further properties of the module *)

(** ** The hash of a cookie *)

(** X1.  The cookie that [handle_new_sign_in] sets for a session, when it
    is presented again, decodes into four fields, and the hash recomputed
    from them is the hash under which the session was saved.  This needs
    a salt and a session id without dollar signs, and the numeral 1000 to
    read as the number 1000. *)
Theorem issued_cookie_recomputes_saved_hash
    (rt : Runtime) (k : nat) (session_id hash : string) :
  password_hash rt k session_id = Ok hash ->
  has_char dollar (fresh_salt rt k) = false ->
  has_char dollar session_id = false ->
  to_number rt "1000" = Some 1000 ->
  decode_remember_me (remember_me_value hash session_id)
  = Ok ["sha512"; fresh_salt rt k; "1000"; session_id]
  /\ generate_hash rt (Some "sha512") (Some (fresh_salt rt k)) (IStr "1000")
       session_id = Ok hash.
Proof.
  intros Hh Hsalt Hsid Hnum.
  apply has_char_false in Hsalt. apply has_char_false in Hsid.
  unfold password_hash in Hh. rewrite generate_hash_rounds in Hh.
  assert (Hstr : generate_hash rt (Some "sha512") (Some (fresh_salt rt k))
                   (IStr "1000") session_id = Ok hash).
  { rewrite generate_hash_rounds.
    change (number_of rt (or_one (IStr "1000")))
      with (to_number rt "1000").
    rewrite Hnum. exact Hh. }
  split; [|exact Hstr].
  change (number_of rt (or_one (INum HASH_ITERATIONS))) with (Some 1000)
    in Hh.
  destruct (hmac_rounds rt (rounds_of (Some 1000)) HASH_ALGORITHM
              (fresh_salt rt k) session_id) as [m|d]; [discriminate|].
  injection Hh as <-.
  unfold remember_me_value.
  match goal with
  | |- context [split dollar ?t] =>
      assert (Hform : t = "sha512" +:+ String dollar
                            (fresh_salt rt k +:+ String dollar
                               ("1000" +:+ String dollar d)))
        by reflexivity;
      rewrite Hform
  end.
  rewrite !split_app_sep by (assumption || reflexivity).
  change (join "$" [at_index ("sha512" :: fresh_salt rt k :: "1000"
                                :: split dollar d) 0;
                    at_index ("sha512" :: fresh_salt rt k :: "1000"
                                :: split dollar d) 1;
                    at_index ("sha512" :: fresh_salt rt k :: "1000"
                                :: split dollar d) 2;
                    session_id])
    with ("sha512" +:+ String dollar
            (fresh_salt rt k +:+ String dollar
               ("1000" +:+ String dollar session_id))).
  unfold decode_remember_me.
  rewrite !split_app_sep by (assumption || reflexivity).
  now rewrite split_whole.
Qed.

Lemma issued_cookie_recomputes_saved_hash_witness :
  decode_remember_me (remember_me_value Example.session_hash "uuid-0")
  = Ok ["sha512"; "salt-1"; "1000"; "uuid-0"]
  /\ generate_hash Example.runtime (Some "sha512") (Some "salt-1")
       (IStr "1000") "uuid-0" = Ok Example.session_hash.
Proof.
  apply (issued_cookie_recomputes_saved_hash Example.runtime 1 "uuid-0"
           Example.session_hash); reflexivity.
Defined.

(** X2.  A presented cookie of four fields whose third field is not
    empty and not a number is hashed in no round: the hash under which it
    is looked up is the cookie value itself, secret included. *)
Theorem non_numeric_iterations_hash_is_the_cookie
    (rt : Runtime) (value : string) (x : list string) :
  decode_remember_me value = Ok x ->
  at_index x 2 <> "" ->
  to_number rt (at_index x 2) = None ->
  generate_hash rt (x !! 0%nat) (x !! 1%nat) (IStr (at_index x 2))
    (at_index x 3) = Ok value.
Proof.
  intros Hd Hne Hnan. unfold decode_remember_me in Hd.
  destruct (Nat.eqb_spec (length (split dollar value)) 4) as [Hlen|];
    [|discriminate].
  injection Hd as <-.
  pose proof (join_split dollar value) as Hj.
  destruct (split dollar value) as [|a [|b [|c [|d [|]]]]];
    try discriminate Hlen.
  cbn [lookup list_lookup at_index nth] in *.
  rewrite generate_hash_rounds.
  assert (or_one (IStr c) = IStr c) as ->
    by (destruct c; [congruence | reflexivity]).
  cbn [number_of show_iterations]. rewrite Hnan. cbn [rounds_of hmac_rounds].
  now rewrite <- Hj.
Qed.

Lemma non_numeric_iterations_hash_is_the_cookie_witness :
  generate_hash Example.runtime (Some "sha512") (Some "salt")
    (IStr "many") "secret" = Ok "sha512$salt$many$secret".
Proof.
  apply (non_numeric_iterations_hash_is_the_cookie Example.runtime
           "sha512$salt$many$secret" ["sha512"; "salt"; "many"; "secret"]);
    (reflexivity || discriminate).
Defined.

(** X3.  With a non-empty string for [iterations] that reads as the
    integer [n], [generate_hash] prints the string as it is and runs [n]
    rounds when [n >= 1], and [2 - n] rounds otherwise: the string "0"
    gives two rounds, where the number 0 gives one. *)
Theorem generate_hash_string_iterations
    (rt : Runtime) (algorithm salt : string) (s : string) (n : Z)
    (secret : string) :
  s <> "" ->
  to_number rt s = Some n ->
  generate_hash rt (Some algorithm) (Some salt) (IStr s) secret
  = match hmac_rounds rt
            (if 1 <=? n then Z.to_nat n else Z.to_nat (2 - n))
            algorithm salt secret with
    | inr digest =>
        Ok (algorithm +:+ "$" +:+ salt +:+ "$" +:+ s +:+ "$" +:+ digest)
    | inl m => Throw (ErrCrypto m)
    end.
Proof.
  intros Hne Hn. rewrite generate_hash_rounds.
  assert (or_one (IStr s) = IStr s) as ->
    by (destruct s; [congruence | reflexivity]).
  cbn [number_of show_iterations]. now rewrite Hn.
Qed.

Lemma generate_hash_string_iterations_witness :
  generate_hash Example.runtime (Some "sha512") (Some "s") (IStr "0") "p"
  = Ok "sha512$s$0$hmac(s,hmac(s,p))".
Proof.
  apply (generate_hash_string_iterations Example.runtime "sha512" "s" "0" 0
           "p"); (reflexivity || discriminate).
Defined.

(** X4.  For every base url, the API-key cookie, the remember-me cookie
    and the legacy remember-me cookie have three different names. *)
Theorem cookie_names_are_distinct (base_url : string) :
  api_key_cookie_name base_url <> remember_me_cookie_name base_url false
  /\ api_key_cookie_name base_url <> remember_me_cookie_name base_url true
  /\ remember_me_cookie_name base_url false
     <> remember_me_cookie_name base_url true.
Proof.
  unfold api_key_cookie_name, remember_me_cookie_name.
  repeat split; intros H; apply append_inj_r in H; discriminate H.
Qed.

(** ** The calls of each step *)

Section Footprints.
Context (rt : Runtime) {S : Type} (db : Database S) (opts : Opts.t).

Lemma calls_within_bind {A B} ks (m : M S A) (k : A -> M S B) :
  calls_within ks m -> (forall a, calls_within ks (k a)) ->
  calls_within ks (bind m k).
Proof.
  intros Hm Hk st r st'. unfold bind.
  destruct (m st) as [[a|e] st1] eqn:E; intros H.
  - destruct (Hm _ _ _ E) as (c1 & H1 & F1).
    destruct (Hk _ _ _ _ H) as (c2 & H2 & F2).
    exists (c1 ++ c2)%list. rewrite H2, H1, app_assoc.
    split; [reflexivity | now apply Forall_app].
  - inversion H; subst. eapply Hm, E.
Qed.

Lemma calls_within_quiet {A} ks (m : M S A) :
  (forall st, trace (snd (m st)) = trace st) -> calls_within ks m.
Proof.
  intros H st r st' E. specialize (H st). rewrite E in H. cbn in H.
  exists []. rewrite app_nil_r. split; [exact H | constructor].
Qed.

Lemma calls_within_start {T} ks (e : dbE T) :
  kind_in ks (called e) = true -> calls_within ks (start db e).
Proof.
  intros He st r st'. unfold start.
  destruct (db T e (store st)) as [v s']. intros E. inversion E; subst.
  exists [called e]. split; [reflexivity | now constructor].
Qed.

Lemma calls_within_callback2 {T} ks (e : dbE T) :
  kind_in ks (called e) = true -> calls_within ks (callback2 db e).
Proof.
  intros He st r st'. unfold callback2.
  destruct (db T e (store st)) as [[err|v] s']; intros E;
    inversion E; subst;
    (exists [called e]; split; [reflexivity | now constructor]).
Qed.

Lemma calls_within_more {A} ks ks' (m : M S A) :
  (forall c, kind_in ks c = true -> kind_in ks' c = true) ->
  calls_within ks m -> calls_within ks' m.
Proof.
  intros Hsub Hm st r st' E. destruct (Hm _ _ _ E) as (calls & Ht & Hf).
  exists calls. split; [exact Ht|].
  eapply Forall_impl; [exact Hf | exact Hsub].
Qed.

Ltac footprint :=
  repeat first
    [ apply calls_within_bind; [|intros ?]
    | apply calls_within_callback2; reflexivity
    | apply calls_within_start; reflexivity
    | apply calls_within_quiet; intros ?; reflexivity
    | match goal with
      | |- calls_within _ (if ?b then _ else _) => destruct b
      | |- calls_within _ (match ?x with _ => _ end) => destruct x
      end ].

Lemma calls_of_check_remember_me_cookie :
  calls_within [KGetRememberMe] (check_remember_me_cookie rt db).
Proof. unfold check_remember_me_cookie, lift. footprint. Qed.

Lemma calls_of_check_passport_exists :
  calls_within [KPassportExists; KCreatePassport]
    (check_passport_exists db opts).
Proof. unfold check_passport_exists. footprint. Qed.

Lemma calls_of_probes_started emails :
  calls_within [KAccountExists] (probes_started db emails).
Proof.
  induction emails as [|email rest IH]; cbn [probes_started]; footprint;
    exact IH.
Qed.

Lemma calls_of_check_existing_emails winner :
  calls_within [KAccountExists] (check_existing_emails db opts winner).
Proof.
  unfold check_existing_emails. footprint.
  - apply calls_of_probes_started.
  - unfold probe_settled. footprint.
Qed.

Lemma calls_of_maybe_create_account :
  calls_within [KCreateAccount; KAccountCreationActions; KLog]
    (maybe_create_account db opts).
Proof. unfold maybe_create_account, fire_and_forget. footprint. Qed.

Lemma calls_of_maybe_record_sign_in :
  calls_within [KRecordSignIn] (maybe_record_sign_in db opts).
Proof. unfold maybe_record_sign_in, fire_and_forget. footprint. Qed.

Lemma calls_of_maybe_provision_api_key :
  calls_within [KApiKeyAction] (maybe_provision_api_key db).
Proof. unfold maybe_provision_api_key. footprint. Qed.

Lemma calls_of_is_user_banned a em :
  calls_within [KIsBannedUser; KServerSettings] (is_user_banned rt db a em).
Proof. unfold is_user_banned. footprint. Qed.

Lemma calls_of_handle_new_sign_in :
  calls_within [KSaveRememberMe] (handle_new_sign_in rt db opts).
Proof. unfold handle_new_sign_in, lift, draw, cookies_set. footprint. Qed.

(** The steps after the link has been looked up. *)
Lemma calls_after_passport_lookup winner :
  calls_within
    [KAccountExists; KCreateAccount; KAccountCreationActions; KLog;
     KRecordSignIn; KApiKeyAction; KIsBannedUser; KServerSettings;
     KSaveRememberMe]
    (bind (check_existing_emails db opts winner)
       (fun _ =>
          bind (maybe_create_account db opts)
            (fun _ =>
               bind (maybe_record_sign_in db opts)
                 (fun _ => after_resolution rt db opts)))).
Proof.
  assert (Hsub : forall ks (m : M S unit),
            (forall c, kind_in ks c = true ->
                       kind_in [KAccountExists; KCreateAccount;
                                KAccountCreationActions; KLog;
                                KRecordSignIn; KApiKeyAction;
                                KIsBannedUser; KServerSettings;
                                KSaveRememberMe] c = true) ->
            calls_within ks m ->
            calls_within [KAccountExists; KCreateAccount;
                          KAccountCreationActions; KLog; KRecordSignIn;
                          KApiKeyAction; KIsBannedUser; KServerSettings;
                          KSaveRememberMe] m).
  { intros ks m. apply calls_within_more. }
  unfold after_resolution, after_api_key.
  apply calls_within_bind; [|intros _].
  { eapply Hsub; [|apply calls_of_check_existing_emails].
    intros [T []]; cbn; congruence. }
  apply calls_within_bind; [|intros _].
  { eapply Hsub; [|apply calls_of_maybe_create_account].
    intros [T []]; cbn; congruence. }
  apply calls_within_bind; [|intros _].
  { eapply Hsub; [|apply calls_of_maybe_record_sign_in].
    intros [T []]; cbn; congruence. }
  apply calls_within_bind; [|intros _].
  { eapply Hsub; [|apply calls_of_maybe_provision_api_key].
    intros [T []]; cbn; congruence. }
  apply calls_within_bind; [|intros l].
  { apply calls_within_quiet. intros st. reflexivity. }
  apply calls_within_bind; [|intros _].
  { eapply calls_within_more; [|apply calls_of_is_user_banned].
    intros [T []]; cbn; congruence. }
  eapply Hsub; [|apply calls_of_handle_new_sign_in].
  intros [T []]; cbn; congruence.
Qed.
End Footprints.

(** ** What every attempt keeps *)

Lemma bind_ok_inv {S A B} (m : M S A) (k : A -> M S B) st b st' :
  bind m k st = (Ok b, st') ->
  exists a st1, m st = (Ok a, st1) /\ k a st1 = (Ok b, st').
Proof.
  unfold bind. destruct (m st) as [[a|e] st1]; [|discriminate].
  intros H. now exists a, st1.
Qed.

Section Keeps.
Context (rt : Runtime) {S : Type} (db : Database S) (opts : Opts.t).
Context {X : Type} (f : Locals.t -> X).

Lemma keeps_bind {A B} (m : M S A) (k : A -> M S B) :
  keeps f m -> (forall a, keeps f (k a)) -> keeps f (bind m k).
Proof.
  intros Hm Hk st b st' H.
  destruct (bind_ok_inv _ _ _ _ _ H) as (a & st1 & E1 & E2).
  rewrite (Hk _ _ _ _ E2). eapply Hm, E1.
Qed.

Lemma keeps_same {A} (m : M S A) :
  (forall st, locals (snd (m st)) = locals st) -> keeps f m.
Proof.
  intros H st a st' E. specialize (H st). rewrite E in H. cbn in H.
  now rewrite H.
Qed.

Lemma keeps_modify g :
  (forall l, f (g l) = f l) -> keeps (S := S) f (modify g).
Proof. intros H st a st' E. inversion E; subst. apply H. Qed.

Lemma keeps_throw {A} e : keeps (S := S) (A := A) f (throw e).
Proof. intros st a st' E. discriminate E. Qed.

Lemma keeps_callback2 {T} (e : dbE T) : keeps f (callback2 db e).
Proof.
  apply keeps_same. intros st. unfold callback2.
  now destruct (db T e (store st)) as [[err|v] s'].
Qed.

Lemma keeps_start {T} (e : dbE T) : keeps f (start db e).
Proof.
  apply keeps_same. intros st. unfold start.
  now destruct (db T e (store st)) as [v s'].
Qed.

Lemma keeps_probes_started emails : keeps f (probes_started db emails).
Proof.
  induction emails as [|email rest IH]; cbn [probes_started].
  - apply keeps_same. intros st. reflexivity.
  - apply keeps_bind; [apply keeps_same; intros st; reflexivity|].
    intros l. destruct (truthy (Locals.account_id l)); [exact IH|].
    apply keeps_bind; [apply keeps_start | intros r].
    apply keeps_bind; [exact IH | intros rs].
    apply keeps_same. intros st. reflexivity.
Qed.
End Keeps.

Ltac keep_field :=
  repeat first
    [ apply keeps_bind; [|intros ?]
    | apply keeps_modify; intros ?; reflexivity
    | apply keeps_throw
    | apply keeps_callback2
    | apply keeps_start
    | apply keeps_probes_started
    | apply keeps_same; intros ?; reflexivity
    | match goal with
      | |- keeps _ (if ?b then _ else _) => destruct b
      | |- keeps _ (match ?x with _ => _ end) => destruct x
      end ].

Section Attempt.
Context (rt : Runtime) {S : Type} (db : Database S) (opts : Opts.t).
Context (winner : nat).

(** No step before the API key touches the request's API-key cookie as
    read into the locals. *)
Lemma resolution_keeps_api_key_request :
  keeps Locals.get_api_key (resolution_steps rt db opts winner).
Proof.
  unfold resolution_steps, check_remember_me_cookie, check_passport_exists,
    check_existing_emails, probe_settled, maybe_create_account,
    maybe_record_sign_in, fire_and_forget, lift.
  keep_field.
Qed.

(** How [handle_new_sign_in] can end. *)
Lemma handle_new_sign_in_cases st r st' :
  handle_new_sign_in rt db opts st = (r, st') ->
  locals st' = locals st
  /\ ((Locals.has_valid_remember_me (locals st) = true /\ r = Ok tt
       /\ st' = st)
      \/ (Locals.has_valid_remember_me (locals st) = false
          /\ (exists e, r = Throw e) /\ jar st' = jar st)
      \/ (Locals.has_valid_remember_me (locals st) = false /\ r = Ok tt
          /\ exists a hash,
               Locals.account_id (locals st) = Some a
               /\ password_hash rt (Datatypes.S (draws st))
                    (uuid_v4 rt (draws st)) = Ok hash
               /\ jar st'
                  = (jar st
                     ++ [the_session_cookie opts hash
                           (uuid_v4 rt (draws st))])%list
               /\ trace st'
                  = (trace st ++ [called (the_session opts a hash)])%list)).
Proof.
  unfold handle_new_sign_in. unfold_monad.
  destruct (Locals.has_valid_remember_me (locals st)) eqn:Hv.
  - intros H. inversion H; subst. split; [reflexivity|]. now left.
  - destruct (Locals.account_id (locals st)) as [a|] eqn:Ha.
    + state_simpl.
      destruct (password_hash rt (Datatypes.S (draws st))
                  (uuid_v4 rt (draws st))) as [hash|e] eqn:Hh.
      * destruct (db _ (the_session opts a hash) (store st))
          as [[err|[]] s'] eqn:Hdb; intros H; inversion H; subst;
          (split; [reflexivity|]).
        -- right. left. repeat split. now eexists.
        -- right. right. repeat split. now exists a, hash.
      * intros H. inversion H; subst. split; [reflexivity|].
        right. left. repeat split. now eexists.
    + intros H. inversion H; subst. split; [reflexivity|].
      right. left. repeat split. now eexists.
Qed.

Lemma is_user_banned_returns a em st b st' :
  is_user_banned rt db a em st = (Ok b, st') ->
  b = false
  /\ exists s', db _ (is_banned_user a) (store st) = (inr false, s')
                /\ st' = answered (is_banned_user a) s' st.
Proof.
  unfold is_user_banned. unfold_monad.
  destruct (db _ (is_banned_user a) (store st)) as [[err|[]] s'];
    [discriminate| |].
  - state_simpl.
    destruct (db _ get_server_settings_cached s') as [[err|stg] s''];
      discriminate.
  - intros H. inversion H; subst. split; [reflexivity|]. now exists s'.
Qed.

(** How an attempt can end, as far as the session is concerned: either
    no cookie was set, or the attempt completed for a caller without a
    live cookie and the last things it did were to draw a session id, to
    hash it, to save a session under that hash for the account it settled
    on and to set the cookie of that session id. *)
Lemma login_steps_session st0 r st :
  login_steps rt db opts winner st0 = (r, st) ->
  (jar st = jar st0
   /\ (r = Ok tt -> Locals.has_valid_remember_me (locals st) = true))
  \/ (r = Ok tt
      /\ Locals.has_valid_remember_me (locals st) = false
      /\ exists a hash n before,
           Locals.account_id (locals st) = Some a
           /\ password_hash rt (Datatypes.S n) (uuid_v4 rt n) = Ok hash
           /\ jar st
              = (jar st0
                 ++ [the_session_cookie opts hash (uuid_v4 rt n)])%list
           /\ trace st
              = (before ++ [called (the_session opts a hash)])%list).
Proof.
  rewrite login_steps_before_ban_check. unfold bind at 1.
  destruct (steps_before_ban_check rt db opts winner st0)
    as [[[]|e1] st1] eqn:E1.
  - destruct (silent_steps_before_ban_check rt db opts winner _ _ _ E1)
      as [Hjar1 _].
    unfold after_api_key, bind at 1, get_locals. unfold bind at 1.
    destruct (is_user_banned rt db (Locals.account_id (locals st1))
                (Locals.email_address (locals st1)) st1)
      as [[b|e2] st2] eqn:E2.
    + destruct (silent_is_user_banned rt db _ _ _ _ _ E2) as [Hjar2 _].
      intros H. destruct (handle_new_sign_in_cases _ _ _ H)
        as [Hloc [(Hv & -> & ->)|[(Hv & [e ->] & Hjar)|(Hv & -> & a & hash
              & Ha & Hh & Hjar & Htr)]]].
      * left. split; [congruence | intros _; exact Hv].
      * left. split; [congruence | discriminate].
      * right. repeat split; [congruence|].
        exists a, hash, (draws st2), (trace st2).
        rewrite Hloc, Hjar, Htr, Hjar2, Hjar1. repeat split; assumption.
    + destruct (silent_is_user_banned rt db _ _ _ _ _ E2) as [Hjar2 _].
      intros H. inversion H; subst. left.
      split; [congruence | discriminate].
  - intros H. inversion H; subst. left.
    destruct (silent_steps_before_ban_check rt db opts winner _ _ _ E1)
      as [Hjar1 _].
    split; [exact Hjar1 | discriminate].
Qed.
End Attempt.

(** ** Sessions, cookies and the ban check over whole attempts *)

Section AttemptProperties.
Context (rt : Runtime) {S : Type} (db : Database S) (opts : Opts.t).
Context (winner : nat) (remember_me_cookie key : option string).
Context (s : S) (seed : nat).

Lemma passport_login_state r st :
  login_steps rt db opts winner
    (initial_state opts remember_me_cookie key s seed) = (r, st) ->
  snd (passport_login rt db opts winner remember_me_cookie key s seed) = st
  /\ (fst (passport_login rt db opts winner remember_me_cookie key s seed)
      = NoResponse <-> r = Ok tt).
Proof.
  intros H. unfold passport_login. rewrite H.
  destruct r as [[]|e]; [now split|].
  destruct (err_truthy e); (split; [reflexivity|]); split; discriminate.
Qed.

(** X5.  An attempt that ends in a response to the client, an error
    message, has set no cookie after reading the request: no session
    cookie goes out with a rejection, whichever step rejected. *)
Theorem rejected_attempt_sets_no_session_cookie :
  fst (passport_login rt db opts winner remember_me_cookie key s seed)
  <> NoResponse ->
  jar (snd (passport_login rt db opts winner remember_me_cookie key s seed))
  = jar (initial_state opts remember_me_cookie key s seed)
  /\ session_cookies (Opts.base_url opts)
       (snd (passport_login rt db opts winner remember_me_cookie key s
               seed)) = [].
Proof.
  intros Hr.
  destruct (login_steps rt db opts winner
              (initial_state opts remember_me_cookie key s seed))
    as [r st] eqn:E.
  destruct (passport_login_state r st E) as [-> Hiff].
  destruct (login_steps_session rt db opts winner _ _ _ E)
    as [[Hjar _]|(-> & _)]; [|now destruct Hr; apply Hiff].
  split; [exact Hjar|]. unfold session_cookies. rewrite Hjar.
  apply initial_state_no_session.
Qed.

(** X6.  An attempt that completes has set exactly one session cookie
    when the caller came without a live remember-me cookie: it drew a
    session id, hashed it with [password_hash], saved the session of the
    account it settled on under that hash as its last call, and set the
    cookie made of that hash and that session id.  It has set no cookie
    when the caller came with a live one. *)
Theorem completed_attempt_session :
  fst (passport_login rt db opts winner remember_me_cookie key s seed)
  = NoResponse ->
  if Locals.has_valid_remember_me
       (locals (snd (passport_login rt db opts winner remember_me_cookie
                       key s seed)))
  then
    jar (snd (passport_login rt db opts winner remember_me_cookie key s
                seed))
    = jar (initial_state opts remember_me_cookie key s seed)
  else
    exists a hash n,
      Locals.account_id
        (locals (snd (passport_login rt db opts winner remember_me_cookie
                        key s seed))) = Some a
      /\ password_hash rt (Datatypes.S n) (uuid_v4 rt n) = Ok hash
      /\ session_cookies (Opts.base_url opts)
           (snd (passport_login rt db opts winner remember_me_cookie key s
                   seed))
         = [set_cookie (remember_me_cookie_name (Opts.base_url opts) false)
              (Some (remember_me_value hash (uuid_v4 rt n)))
              (Some (ttl * 1000))]
      /\ last (trace (snd (passport_login rt db opts winner
                             remember_me_cookie key s seed)))
         = Some (called
                   (save_remember_me a hash
                      (signed_in true (Opts.host opts) a
                         (Opts.first_name opts) (Opts.last_name opts))
                      ttl)).
Proof.
  intros Hr.
  destruct (login_steps rt db opts winner
              (initial_state opts remember_me_cookie key s seed))
    as [r st] eqn:E.
  destruct (passport_login_state r st E) as [-> Hiff].
  apply Hiff in Hr. subst r.
  destruct (login_steps_session rt db opts winner _ _ _ E)
    as [[Hjar Hv]|(_ & Hv & a & hash & n & before & Ha & Hh & Hjar & Htr)].
  - now rewrite (Hv eq_refl).
  - rewrite Hv. exists a, hash, n. split; [exact Ha|].
    split; [exact Hh|].
    split; [|rewrite Htr; apply last_snoc].
    unfold session_cookies. rewrite Hjar, filter_app.
    change (filter _ (jar (initial_state opts remember_me_cookie key s
                             seed)))
      with (session_cookies (Opts.base_url opts)
              (initial_state opts remember_me_cookie key s seed)).
    rewrite initial_state_no_session. cbn.
    case_decide; [reflexivity | contradiction].
Qed.

(** X7.  When the request carries an API-key cookie, the first cookie of
    the response deletes it, however the attempt ends. *)
Theorem api_key_cookie_is_always_deleted :
  truthy key = true ->
  head (jar (snd (passport_login rt db opts winner remember_me_cookie key s
                    seed)))
  = Some (set_cookie (api_key_cookie_name (Opts.base_url opts)) None None).
Proof.
  intros Hk.
  destruct (login_steps rt db opts winner
              (initial_state opts remember_me_cookie key s seed))
    as [r st] eqn:E.
  destruct (passport_login_state r st E) as [-> _].
  assert (H0 : jar (initial_state opts remember_me_cookie key s seed)
               = [set_cookie (api_key_cookie_name (Opts.base_url opts))
                    None None]).
  { rewrite initial_state_eq. cbn [jar]. now rewrite Hk. }
  destruct (login_steps_session rt db opts winner _ _ _ E)
    as [[Hjar _]|(_ & _ & a & hash & sid & before & _ & _ & Hjar & _)];
    rewrite Hjar, H0; reflexivity.
Qed.

(** X8.  An attempt completes only after the ban check of its account
    has passed: the steps before the check returned, the database was
    then asked, in the store they left, whether the account of the locals
    is banned, and answered no; that account is the one the attempt ends
    with, and after the check the attempt only saves the session. *)
Theorem completed_attempt_passed_ban_check :
  fst (passport_login rt db opts winner remember_me_cookie key s seed)
  = NoResponse ->
  exists st1 s2 rest,
    steps_before_ban_check rt db opts winner
      (initial_state opts remember_me_cookie key s seed) = (Ok tt, st1)
    /\ db _ (is_banned_user (Locals.account_id (locals st1))) (store st1)
       = (inr false, s2)
    /\ Locals.account_id
         (locals (snd (passport_login rt db opts winner remember_me_cookie
                         key s seed)))
       = Locals.account_id (locals st1)
    /\ trace (snd (passport_login rt db opts winner remember_me_cookie key
                     s seed))
       = (trace st1
          ++ called (is_banned_user (Locals.account_id (locals st1)))
          :: rest)%list
    /\ forallb is_save_remember_me rest = true.
Proof.
  intros Hr.
  destruct (login_steps rt db opts winner
              (initial_state opts remember_me_cookie key s seed))
    as [r st] eqn:E.
  destruct (passport_login_state r st E) as [-> Hiff].
  apply Hiff in Hr. subst r.
  rewrite login_steps_before_ban_check in E.
  destruct (bind_ok_inv _ _ _ _ _ E) as ([] & st1 & Hpre & E1).
  unfold after_api_key in E1.
  destruct (bind_ok_inv _ _ _ _ _ E1) as (l & st1' & Hl & E2).
  inversion Hl; subst l st1'; clear Hl.
  destruct (bind_ok_inv _ _ _ _ _ E2) as (b & st2 & Hb & E3).
  destruct (is_user_banned_returns _ _ _ _ _ _ _ Hb)
    as (_ & s' & Hdb & ->).
  destruct (handle_new_sign_in_cases rt db opts _ _ _ E3) as [Hloc Hcases].
  destruct Hcases as [(_ & _ & ->)|[(_ & [e He] & _)|(_ & _ & a & hash & _
    & _ & _ & Htr)]]; [|discriminate He|].
  - exists st1, s', []. repeat split; assumption.
  - exists st1, s', [called (the_session opts a hash)].
    rewrite Hloc, Htr. cbn [answered trace locals].
    rewrite <- app_assoc. repeat split; assumption.
Qed.
End AttemptProperties.

Lemma rejected_attempt_sets_no_session_cookie_witness :
  jar (snd (passport_login Example.runtime MemStore.handler Example.github 0
              None (Some "tok") Example.banned_store 0))
  = jar (initial_state Example.github None (Some "tok")
           Example.banned_store 0)
  /\ session_cookies ""
       (snd (passport_login Example.runtime MemStore.handler Example.github
               0 None (Some "tok") Example.banned_store 0)) = [].
Proof.
  apply (rejected_attempt_sets_no_session_cookie Example.runtime
           MemStore.handler Example.github 0 None (Some "tok")
           Example.banned_store 0).
  discriminate.
Defined.

Lemma completed_attempt_session_witness :
  exists a hash n,
    Locals.account_id
      (locals (snd (passport_login Example.runtime MemStore.handler
                      Example.github 0 None None Example.linked_store 0)))
    = Some a
    /\ password_hash Example.runtime (Datatypes.S n)
         (uuid_v4 Example.runtime n) = Ok hash
    /\ session_cookies ""
         (snd (passport_login Example.runtime MemStore.handler
                 Example.github 0 None None Example.linked_store 0))
       = [set_cookie (remember_me_cookie_name "" false)
            (Some (remember_me_value hash (uuid_v4 Example.runtime n)))
            (Some (ttl * 1000))]
    /\ last (trace (snd (passport_login Example.runtime MemStore.handler
                           Example.github 0 None None Example.linked_store
                           0)))
       = Some (called (save_remember_me a hash
                         (signed_in true "hub0" a "" "Ada") ttl)).
Proof.
  apply (completed_attempt_session Example.runtime MemStore.handler
           Example.github 0 None None Example.linked_store 0).
  reflexivity.
Defined.

Lemma api_key_cookie_is_always_deleted_witness :
  head (jar (snd (passport_login Example.runtime MemStore.handler
                    Example.github 0 None (Some "tok") Example.banned_store
                    0)))
  = Some (set_cookie "get_api_key" None None).
Proof.
  apply (api_key_cookie_is_always_deleted Example.runtime MemStore.handler
           Example.github 0 None (Some "tok") Example.banned_store 0).
  reflexivity.
Defined.

Lemma completed_attempt_passed_ban_check_witness :
  exists st1 s2 rest,
    steps_before_ban_check Example.runtime MemStore.handler Example.github
      0 (initial_state Example.github None None Example.linked_store 0)
    = (Ok tt, st1)
    /\ MemStore.handler _ (is_banned_user (Locals.account_id (locals st1)))
         (store st1)
       = (inr false, s2)
    /\ Locals.account_id
         (locals (snd (passport_login Example.runtime MemStore.handler
                         Example.github 0 None None Example.linked_store
                         0)))
       = Locals.account_id (locals st1)
    /\ trace (snd (passport_login Example.runtime MemStore.handler
                     Example.github 0 None None Example.linked_store 0))
       = (trace st1
          ++ called (is_banned_user (Locals.account_id (locals st1)))
          :: rest)%list
    /\ forallb is_save_remember_me rest = true.
Proof.
  apply (completed_attempt_passed_ban_check Example.runtime MemStore.handler
           Example.github 0 None None Example.linked_store 0).
  reflexivity.
Defined.

(** ** What an attempt never does *)

Section Throws.
Context (rt : Runtime) {S : Type} (db : Database S) (opts : Opts.t).
Context (P : Err -> Prop).

Lemma throws_only_bind {A B} (m : M S A) (k : A -> M S B) :
  throws_only P m -> (forall a, throws_only P (k a)) ->
  throws_only P (bind m k).
Proof.
  intros Hm Hk st e st'. unfold bind.
  destruct (m st) as [[a|e1] st1] eqn:E; intros H.
  - eapply Hk, H.
  - inversion H; subst. eapply Hm, E.
Qed.

Lemma throws_only_returns {A} (m : M S A) :
  (forall st, exists a, fst (m st) = Ok a) -> throws_only P m.
Proof.
  intros H st e st' E. destruct (H st) as [a Ha]. rewrite E in Ha.
  discriminate Ha.
Qed.

Lemma throws_only_throw {A} e : P e -> throws_only (S := S) (A := A) P (throw e).
Proof. intros He st e' st' E. inversion E; subst. exact He. Qed.

Lemma throws_only_lift {A} (r : Res A) :
  (forall e, r = Throw e -> P e) -> throws_only (S := S) P (lift r).
Proof. intros H st e st' E. inversion E; subst. now apply H. Qed.

Lemma throws_only_callback2 {T} (e : dbE T) :
  (forall err, P (ErrDb err)) -> throws_only P (callback2 db e).
Proof.
  intros H st e' st'. unfold callback2.
  destruct (db T e (store st)) as [[err|v] s']; intros E;
    inversion E; subst. apply H.
Qed.

Lemma throws_only_start {T} (e : dbE T) : throws_only P (start db e).
Proof.
  apply throws_only_returns. intros st. unfold start.
  destruct (db T e (store st)) as [v s']. now eexists.
Qed.

Lemma throws_only_probes_started emails :
  throws_only P (probes_started db emails).
Proof.
  induction emails as [|email rest IH]; cbn [probes_started].
  - apply throws_only_returns. intros st. now eexists.
  - apply throws_only_bind;
      [apply throws_only_returns; intros st; now eexists | intros l].
    destruct (truthy (Locals.account_id l)); [exact IH|].
    apply throws_only_bind; [apply throws_only_start | intros r].
    apply throws_only_bind; [exact IH | intros rs].
    apply throws_only_returns. intros st. now eexists.
Qed.
End Throws.

Section NeverDone.
Context (rt : Runtime) {S : Type} (db : Database S) (opts : Opts.t).
Context (winner : nat).

Ltac no_null_guard :=
  repeat first
    [ apply throws_only_bind; [|intros ?]
    | apply throws_only_throw; discriminate
    | apply throws_only_callback2; intros ?; discriminate
    | apply throws_only_start
    | apply throws_only_probes_started
    | apply throws_only_returns; intros ?; now eexists
    | match goal with
      | |- throws_only _ (if ?b then _ else _) => destruct b
      | |- throws_only _ (match ?x with _ => _ end) => destruct x
      end ].

Lemma steps_before_ban_check_no_null_guard :
  throws_only not_the_null_guard
    (steps_before_ban_check rt db opts winner).
Proof.
  unfold steps_before_ban_check, resolution_steps, check_remember_me_cookie,
    check_passport_exists, check_existing_emails, probe_settled,
    maybe_create_account, maybe_record_sign_in, maybe_provision_api_key,
    fire_and_forget.
  no_null_guard.
  apply throws_only_lift. intros e. unfold decode_remember_me.
  destruct (negb _); intros H; inversion H; subst. discriminate.
Qed.

Lemma is_user_banned_no_null_guard a em :
  throws_only not_the_null_guard (is_user_banned rt db a em).
Proof. unfold is_user_banned. no_null_guard. Qed.

Lemma maybe_create_account_settles st st' :
  maybe_create_account db opts st = (Ok tt, st') ->
  is_Some (Locals.account_id (locals st')).
Proof.
  unfold maybe_create_account. unfold_monad.
  destruct (truthy (Locals.account_id (locals st))) eqn:Ht.
  - intros H. inversion H; subst.
    destruct (Locals.account_id (locals st')); [eauto | discriminate].
  - intros H.
    repeat match type of H with
           | context [db ?T ?e ?x] =>
               destruct (db T e x) as [[?|?] ?]; state_simpl
           | context [match Opts.emails opts with _ => _ end] =>
               destruct (Opts.emails opts); state_simpl
           | context [match Locals.email_address ?l with _ => _ end] =>
               destruct (Locals.email_address l) eqn:?; state_simpl
           end;
      try discriminate; inversion H; subst; cbn; eauto.
Qed.

Lemma maybe_record_sign_in_locals st r st' :
  maybe_record_sign_in db opts st = (r, st') -> locals st' = locals st.
Proof.
  unfold maybe_record_sign_in. unfold_monad.
  destruct (negb _); [|now intros H; inversion H].
  destruct (db _ _ (store st)) as [v s']. now intros H; inversion H.
Qed.

(** Once the steps before the ban check have returned, the locals hold
    an account. *)
Lemma account_is_settled st0 st1 :
  steps_before_ban_check rt db opts winner st0 = (Ok tt, st1) ->
  is_Some (Locals.account_id (locals st1)).
Proof.
  unfold steps_before_ban_check, resolution_steps. intros H.
  destruct (bind_ok_inv _ _ _ _ _ H) as ([] & sa & Hres & Hapi).
  destruct (bind_ok_inv _ _ _ _ _ Hres) as ([] & s1 & _ & H1).
  destruct (bind_ok_inv _ _ _ _ _ H1) as ([] & s2 & _ & H2).
  destruct (bind_ok_inv _ _ _ _ _ H2) as ([] & s3 & _ & H3).
  destruct (bind_ok_inv _ _ _ _ _ H3) as ([] & s4 & Hc & Hr).
  destruct (api_key_step_keeps db _ _ Hapi) as (-> & _).
  rewrite (maybe_record_sign_in_locals _ _ _ Hr).
  exact (maybe_create_account_settles _ _ Hc).
Qed.

Lemma handle_new_sign_in_null_guard st st' :
  handle_new_sign_in rt db opts st = (Throw ErrAccountIdNull, st') ->
  Locals.account_id (locals st) = None.
Proof.
  unfold handle_new_sign_in. unfold_monad.
  destruct (Locals.has_valid_remember_me (locals st)); [discriminate|].
  destruct (Locals.account_id (locals st)) as [a|]; [|reflexivity].
  state_simpl. unfold password_hash. rewrite generate_hash_rounds.
  destruct (hmac_rounds rt _ HASH_ALGORITHM _ _); [discriminate|].
  destruct (db _ _ (store st)) as [[err|[]] s']; discriminate.
Qed.

(** X9.  The guard of [handle_new_sign_in] against an absent account id
    never fires in [passport_login]: no attempt ends with the error
    "locals.account_id is null". *)
Theorem account_id_null_guard_is_unreachable
    (remember_me_cookie key : option string) (s : S) (seed : nat) :
  fst (login_steps rt db opts winner
         (initial_state opts remember_me_cookie key s seed))
  <> Throw ErrAccountIdNull.
Proof.
  destruct (login_steps rt db opts winner
              (initial_state opts remember_me_cookie key s seed))
    as [r st] eqn:E.
  cbn [fst]. intros ->.
  rewrite login_steps_before_ban_check in E. unfold bind at 1 in E.
  destruct (steps_before_ban_check rt db opts winner _)
    as [[[]|e1] st1] eqn:E1.
  - pose proof (account_is_settled _ _ E1) as [a Ha].
    unfold after_api_key, bind at 1, get_locals in E. unfold bind at 1 in E.
    destruct (is_user_banned rt db _ _ st1) as [[b|e2] st2] eqn:E2.
    + destruct (is_user_banned_returns _ _ _ _ _ _ _ E2)
        as (_ & s' & _ & ->).
      apply handle_new_sign_in_null_guard in E. cbn in E. congruence.
    + inversion E; subst.
      exact (is_user_banned_no_null_guard _ _ _ _ _ E2 eq_refl).
  - inversion E; subst.
    exact (steps_before_ban_check_no_null_guard _ _ _ E1 eq_refl).
Qed.
End NeverDone.

Section NeverCalled.
Context (rt : Runtime) {S : Type} (db : Database S) (opts : Opts.t).
Context (winner : nat).

Ltac widen step :=
  eapply calls_within_more; [|step];
  intros [T []]; cbn; congruence.

Lemma calls_of_resolution_steps :
  calls_within
    [KGetRememberMe; KPassportExists; KCreatePassport; KAccountExists;
     KCreateAccount; KAccountCreationActions; KLog; KRecordSignIn]
    (resolution_steps rt db opts winner).
Proof.
  unfold resolution_steps.
  apply calls_within_bind; [|intros _].
  { widen ltac:(apply calls_of_check_remember_me_cookie). }
  apply calls_within_bind; [|intros _].
  { widen ltac:(apply calls_of_check_passport_exists). }
  apply calls_within_bind; [|intros _].
  { widen ltac:(apply calls_of_check_existing_emails). }
  apply calls_within_bind; [|intros _].
  { widen ltac:(apply calls_of_maybe_create_account). }
  widen ltac:(apply calls_of_maybe_record_sign_in).
Qed.

Lemma calls_of_after_api_key :
  calls_within [KIsBannedUser; KServerSettings; KSaveRememberMe]
    (after_api_key rt db opts).
Proof.
  unfold after_api_key.
  apply calls_within_bind; [|intros l].
  { apply calls_within_quiet. intros st. reflexivity. }
  apply calls_within_bind; [|intros _].
  { widen ltac:(apply calls_of_is_user_banned). }
  widen ltac:(apply calls_of_handle_new_sign_in).
Qed.

Lemma initial_trace remember_me_cookie key (s : S) seed :
  trace (initial_state opts remember_me_cookie key s seed) = [].
Proof. now rewrite initial_state_eq. Qed.

(** X10.  Without an API-key cookie on the request, no attempt reads,
    creates or regenerates an API key. *)
Theorem no_api_key_cookie_no_api_key_action
    (remember_me_cookie key : option string) (s : S) (seed : nat) :
  truthy key = false ->
  existsb is_api_key_action
    (trace (snd (passport_login rt db opts winner remember_me_cookie key s
                   seed))) = false.
Proof.
  intros Hk.
  destruct (login_steps rt db opts winner
              (initial_state opts remember_me_cookie key s seed))
    as [r st] eqn:E.
  destruct (passport_login_state rt db opts winner _ _ _ _ r st E)
    as [-> _].
  rewrite login_steps_resolution in E. unfold bind at 1 in E.
  destruct (resolution_steps rt db opts winner _) as [[[]|e] st1] eqn:E1.
  - pose proof (resolution_keeps_api_key_request rt db opts winner _ _ _ E1)
      as Hkey.
    rewrite initial_state_eq in Hkey. cbn [locals initial_locals
      Locals.get_api_key] in Hkey.
    unfold after_resolution, bind at 1 in E.
    rewrite no_api_key_requested in E by now rewrite Hkey.
    destruct (calls_of_resolution_steps _ _ _ E1) as (c1 & H1 & F1).
    destruct (calls_of_after_api_key _ _ _ E) as (c2 & H2 & F2).
    rewrite H2, H1, initial_trace, app_nil_l, existsb_app.
    rewrite (existsb_none_of _ _ _ F1), (existsb_none_of _ _ _ F2);
      [reflexivity | |]; intros [T []]; cbn; congruence.
  - inversion E; subst.
    destruct (calls_of_resolution_steps _ _ _ E1) as (c1 & H1 & F1).
    rewrite H1, initial_trace, app_nil_l.
    apply (existsb_none_of _ _ _ F1). intros [T []]; cbn; congruence.
Qed.

(** Without a live cookie, the link step makes its lookup and no other
    call. *)
Lemma passport_lookup_only st r st' :
  Locals.has_valid_remember_me (locals st) = false ->
  check_passport_exists db opts st = (r, st') ->
  trace st' = (trace st ++ [called (the_passport opts)])%list.
Proof.
  intros Hv. unfold check_passport_exists. unfold_monad.
  destruct (db _ (the_passport opts) (store st)) as [[err|a] s'];
    state_simpl; [now intros H; inversion H|].
  rewrite Hv, andb_false_r. cbn [andb].
  destruct (Locals.account_id (locals st)); intros H; inversion H;
    reflexivity.
Qed.

(** X11.  Without a remember-me cookie on the request, no attempt
    creates a link between the identity and an account: the link table
    is only read. *)
Theorem no_remember_me_cookie_no_link_created
    (remember_me_cookie key : option string) (s : S) (seed : nat) :
  truthy remember_me_cookie = false ->
  existsb is_create_passport
    (trace (snd (passport_login rt db opts winner remember_me_cookie key s
                   seed))) = false.
Proof.
  intros Hc.
  destruct (login_steps rt db opts winner
              (initial_state opts remember_me_cookie key s seed))
    as [r st] eqn:E.
  destruct (passport_login_state rt db opts winner _ _ _ _ r st E)
    as [-> _].
  unfold login_steps, bind at 1 in E.
  rewrite no_cookie_no_check in E
    by (rewrite initial_state_eq; exact Hc).
  unfold bind at 1 in E.
  destruct (check_passport_exists db opts _) as [[[]|e] st2] eqn:E2;
    apply passport_lookup_only in E2;
    try (rewrite initial_state_eq; reflexivity);
    rewrite initial_trace, app_nil_l in E2.
  - destruct (calls_after_passport_lookup rt db opts winner _ _ _ E)
      as (c & Hc2 & F).
    rewrite Hc2, E2, existsb_app. cbn [existsb orb].
    apply (existsb_none_of _ _ _ F). intros [T []]; cbn; congruence.
  - inversion E; subst. rewrite E2. reflexivity.
Qed.
End NeverCalled.

Lemma no_api_key_cookie_no_api_key_action_witness :
  truthy None = false
  /\ existsb is_api_key_action
       (trace (snd (passport_login Example.runtime MemStore.handler
                      Example.github 0 None None Example.linked_store 7)))
     = false.
Proof.
  split; [reflexivity|].
  apply (no_api_key_cookie_no_api_key_action Example.runtime
           MemStore.handler Example.github 0 None None
           Example.linked_store 7).
  reflexivity.
Defined.

Lemma no_remember_me_cookie_no_link_created_witness :
  truthy None = false
  /\ existsb is_create_passport
       (trace (snd (passport_login Example.runtime MemStore.handler
                      Example.github_no_email 0 None None MemStore.empty
                      7)))
     = false.
Proof.
  split; [reflexivity|].
  apply (no_remember_me_cookie_no_link_created Example.runtime
           MemStore.handler Example.github_no_email 0 None None
           MemStore.empty 7).
  reflexivity.
Defined.

Section Authenticated.
Context (rt : Runtime) {S : Type} (db : Database S) (opts : Opts.t).
Context (winner : nat).

(** For a caller with a live cookie, the link step returns with the
    locals as they were. *)
Lemma authenticated_link_keeps_locals st st' :
  Locals.has_valid_remember_me (locals st) = true ->
  check_passport_exists db opts st = (Ok tt, st') ->
  locals st' = locals st.
Proof.
  intros Hv. unfold check_passport_exists. unfold_monad.
  destruct (db _ (the_passport opts) (store st)) as [[err|a] s'];
    state_simpl; [discriminate|].
  rewrite Hv, andb_true_r. cbn [andb].
  destruct (negb (truthy a)).
  - destruct (Locals.account_id (locals st)) as [b|].
    + state_simpl.
      destruct (db _ (the_new_passport opts b) s') as [[err|[]] s''];
        [discriminate|].
      now intros H; inversion H.
    + destruct (negb (bool_decide (None = a))); [discriminate|].
      now intros H; inversion H.
  - destruct (Locals.account_id (locals st)) as [b|];
      (destruct (negb (bool_decide (_ = a))); [discriminate|]);
      now intros H; inversion H.
Qed.

(** The steps after the link, for a caller with a live cookie and an
    account. *)
Lemma authenticated_rest st r st' :
  Locals.has_valid_remember_me (locals st) = true ->
  truthy (Locals.account_id (locals st)) = true ->
  Locals.new_account_created (locals st) = false ->
  bind (check_existing_emails db opts winner)
    (fun _ =>
       bind (maybe_create_account db opts)
         (fun _ =>
            bind (maybe_record_sign_in db opts)
              (fun _ => after_resolution rt db opts))) st = (r, st') ->
  jar st' = jar st
  /\ exists calls,
       trace st' = (trace st ++ calls)%list
       /\ Forall (fun c => kind_in [KRecordSignIn; KApiKeyAction;
                                    KIsBannedUser; KServerSettings] c
                           = true) calls.
Proof.
  intros Hv Ha Hn. unfold bind at 1.
  rewrite known_account_skips_email_check by exact Ha.
  unfold bind at 1. rewrite known_account_is_not_created by exact Ha.
  unfold bind at 1.
  destruct (maybe_record_sign_in db opts st) as [r3 st3] eqn:E3.
  pose proof (maybe_record_sign_in_locals db opts _ _ _ E3) as Hl3.
  destruct (silent_maybe_record_sign_in db opts _ _ _ E3) as [Hj3 _].
  destruct (calls_of_maybe_record_sign_in db opts _ _ _ E3)
    as (c3 & Ht3 & F3).
  assert (Hsub : forall ks calls,
            (forall c, kind_in ks c = true ->
                       kind_in [KRecordSignIn; KApiKeyAction;
                                KIsBannedUser; KServerSettings] c = true) ->
            Forall (fun c => kind_in ks c = true) calls ->
            Forall (fun c => kind_in [KRecordSignIn; KApiKeyAction;
                                      KIsBannedUser; KServerSettings] c
                             = true) calls).
  { intros ks calls Hs HF. eapply Forall_impl; [exact HF | exact Hs]. }
  apply (Hsub _ _) in F3; [|intros [T []]; cbn; congruence].
  destruct r3 as [[]|e3];
    [|intros H; inversion H; subst; split; [exact Hj3 | now exists c3]].
  unfold after_resolution, bind at 1.
  destruct (maybe_provision_api_key db st3) as [[[]|e4] st4] eqn:E4.
  - destruct (api_key_step_keeps db _ _ E4)
      as (_ & _ & Hv4 & _ & Hj4 & _ & _).
    destruct (calls_of_maybe_provision_api_key db _ _ _ E4)
      as (c4 & Ht4 & F4).
    apply (Hsub _ _) in F4; [|intros [T []]; cbn; congruence].
    unfold after_api_key, bind at 1, get_locals. unfold bind at 1.
    destruct (is_user_banned rt db _ _ st4) as [[b|e5] st5] eqn:E5.
    + destruct (silent_is_user_banned rt db _ _ _ _ _ E5) as [Hj5 _].
      destruct (calls_of_is_user_banned rt db _ _ _ _ _ E5)
        as (c5 & Ht5 & F5).
      apply (Hsub _ _) in F5; [|intros [T []]; cbn; congruence].
      destruct (is_user_banned_returns _ _ _ _ _ _ _ E5)
        as (_ & s' & _ & Hst5).
      rewrite authenticated_caller_keeps_cookie
        by (rewrite Hst5; cbn [answered locals]; congruence).
      intros H. inversion H; subst st'. split; [congruence|].
      exists (c3 ++ c4 ++ c5)%list. rewrite Ht5, Ht4, Ht3, <- !app_assoc.
      split; [reflexivity|]. now rewrite !Forall_app.
    + destruct (silent_is_user_banned rt db _ _ _ _ _ E5) as [Hj5 _].
      destruct (calls_of_is_user_banned rt db _ _ _ _ _ E5)
        as (c5 & Ht5 & F5).
      apply (Hsub _ _) in F5; [|intros [T []]; cbn; congruence].
      intros H. inversion H; subst st'. split; [congruence|].
      exists (c3 ++ c4 ++ c5)%list. rewrite Ht5, Ht4, Ht3, <- !app_assoc.
      split; [reflexivity|]. now rewrite !Forall_app.
  - destruct (silent_maybe_provision_api_key db _ _ _ E4) as [Hj4 _].
    destruct (calls_of_maybe_provision_api_key db _ _ _ E4)
      as (c4 & Ht4 & F4).
    apply (Hsub _ _) in F4; [|intros [T []]; cbn; congruence].
    intros H. inversion H; subst st'. split; [congruence|].
    exists (c3 ++ c4)%list. rewrite Ht4, Ht3, <- !app_assoc.
    split; [reflexivity|]. now rewrite !Forall_app.
Qed.

(** X12.  A caller whose remember-me cookie is live for an account is
    never given another account or another session: whatever the link
    lookup answers and however the attempt ends, no email is probed, no
    account is created, no remember-me record is saved and no cookie is
    set beyond the deletion of the API-key cookie. *)
Theorem authenticated_caller_gets_no_new_account_or_session
    (key : option string) (s : S) (seed : nat)
    (value : string) (x : list string) (hash : string)
    (m : SignedInMesg) (s1 : S) :
  decode_remember_me value = Ok x ->
  generate_hash rt (x !! 0%nat) (x !! 1%nat) (IStr (at_index x 2))
    (at_index x 3) = Ok hash ->
  db _ (get_remember_me hash) s = (inr (Some m), s1) ->
  sm_account_id m <> "" ->
  existsb is_account_exists
    (trace (snd (passport_login rt db opts winner (Some value) key s
                   seed))) = false
  /\ existsb is_create_account
       (trace (snd (passport_login rt db opts winner (Some value) key s
                      seed))) = false
  /\ existsb is_save_remember_me
       (trace (snd (passport_login rt db opts winner (Some value) key s
                      seed))) = false
  /\ jar (snd (passport_login rt db opts winner (Some value) key s seed))
     = jar (initial_state opts (Some value) key s seed).
Proof.
  intros Hd Hh Hdb Hm.
  destruct (login_steps rt db opts winner
              (initial_state opts (Some value) key s seed))
    as [r st] eqn:E.
  destruct (passport_login_state rt db opts winner _ _ _ _ r st E)
    as [-> _].
  unfold login_steps, bind at 1 in E.
  rewrite (login_steps_with_live_cookie rt db opts key s seed value x hash
             m s1 Hd Hh Hdb) in E.
  unfold bind at 1 in E.
  assert (Hall : jar st = jar (initial_state opts (Some value) key s seed)
          /\ exists calls,
               trace st = (called (get_remember_me hash) :: calls)%list
               /\ Forall (fun c => kind_in [KPassportExists;
                                            KCreatePassport; KRecordSignIn;
                                            KApiKeyAction; KIsBannedUser;
                                            KServerSettings] c = true)
                    calls).
  { destruct (check_passport_exists db opts _) as [[[]|e] st2] eqn:E2.
    - assert (Hl2 : locals st2
                    = Locals.authenticated (sm_account_id m)
                        (initial_locals opts (Some value) key)).
      { pose proof (fun H => authenticated_link_keeps_locals _ _ H E2)
          as Hl.
        rewrite Hl by reflexivity.
        rewrite initial_state_eq. reflexivity. }
      destruct (silent_check_passport_exists db opts _ _ _ E2)
        as [Hj2 _].
      destruct (calls_of_check_passport_exists db opts _ _ _ E2)
        as (c2 & Ht2 & F2).
      destruct (authenticated_rest st2 r st) as (Hj & c & Ht & F);
        try exact E; try (rewrite Hl2; reflexivity).
      { rewrite Hl2. apply truthy_some, Hm. }
      split; [rewrite Hj, Hj2; reflexivity|].
      exists (c2 ++ c)%list. rewrite Ht, Ht2, initial_state_eq.
      cbn [with_locals answered trace app]. split; [reflexivity|].
      apply Forall_app; split;
        (eapply Forall_impl; [eassumption|]);
        intros [T []]; cbn; congruence.
    - inversion E; subst.
      destruct (silent_check_passport_exists db opts _ _ _ E2)
        as [Hj2 _].
      destruct (calls_of_check_passport_exists db opts _ _ _ E2)
        as (c2 & Ht2 & F2).
      split; [rewrite Hj2; reflexivity|].
      exists c2. rewrite Ht2, initial_state_eq.
      cbn [with_locals answered trace app]. split; [reflexivity|].
      eapply Forall_impl; [exact F2|].
      intros [T []]; cbn; congruence. }
  destruct Hall as (Hj & calls & Ht & F).
  rewrite Ht. cbn [existsb is_account_exists is_create_account
    is_save_remember_me called projT2 orb].
  repeat split; try exact Hj;
    apply (existsb_none_of _ _ _ F); intros [T []]; cbn; congruence.
Qed.
End Authenticated.

Lemma authenticated_caller_gets_no_new_account_or_session_witness :
  existsb is_account_exists
    (trace (snd (passport_login Example.runtime MemStore.handler
                   Example.github 0 (Some Example.cookie) None
                   Example.signed_in_store 0))) = false
  /\ existsb is_create_account
       (trace (snd (passport_login Example.runtime MemStore.handler
                      Example.github 0 (Some Example.cookie) None
                      Example.signed_in_store 0))) = false
  /\ existsb is_save_remember_me
       (trace (snd (passport_login Example.runtime MemStore.handler
                      Example.github 0 (Some Example.cookie) None
                      Example.signed_in_store 0))) = false
  /\ jar (snd (passport_login Example.runtime MemStore.handler
                 Example.github 0 (Some Example.cookie) None
                 Example.signed_in_store 0))
     = jar (initial_state Example.github (Some Example.cookie) None
              Example.signed_in_store 0).
Proof.
  apply (authenticated_caller_gets_no_new_account_or_session
           Example.runtime MemStore.handler Example.github 0 None
           Example.signed_in_store 0 Example.cookie
           ["sha512"; "salt"; "2"; "secret"] Example.cookie_hash
           Example.me Example.signed_in_store);
    (reflexivity || discriminate).
Defined.

(** ** The email check *)

Section EmailCheck.
Context {S : Type} (db : Database S) (opts : Opts.t).

(** The probes as database calls, in the order of the emails. *)
Lemma probes_started_calls emails : forall st,
  truthy (Locals.account_id (locals st)) = false ->
  exists replies st',
    probes_started db emails st = (Ok replies, st')
    /\ map fst replies = emails
    /\ locals st' = locals st
    /\ trace st'
       = (trace st
          ++ map (fun e => called (account_exists (toLowerCase e)))
               emails)%list.
Proof.
  induction emails as [|email rest IH]; intros st Hf.
  - exists [], st. cbn. now rewrite app_nil_r.
  - cbn [probes_started]. unfold_monad. rewrite Hf.
    destruct (db _ (account_exists (toLowerCase email)) (store st))
      as [r s'] eqn:E.
    destruct (IH (answered (account_exists (toLowerCase email)) s' st))
      as (rs & st' & Hrun & Hfst & Hloc & Htr); [exact Hf|].
    exists ((email, r) :: rs), st'.
    unfold bind in Hrun. rewrite Hrun. cbn [map fst].
    cbn [answered trace locals] in *.
    rewrite Htr, <- app_assoc, Hfst. repeat split; congruence.
Qed.

Lemma probe_settled_trace email reply (st : State S) :
  trace (snd (probe_settled opts email reply st)) = trace st.
Proof.
  unfold probe_settled. destruct reply as [err|a]; [reflexivity|].
  unfold_monad. destruct (truthy (Locals.account_id (locals st)));
    [reflexivity|].
  destruct (negb (truthy a)); reflexivity.
Qed.

(** X13.  When the email check is reached with no account yet, it asks
    the database about every email of the identity, lower-cased, in the
    order of the list, and makes no other call, whichever probe settles
    the check. *)
Theorem every_email_is_probed (winner : nat) (st : State S)
    (emails : list string) :
  Opts.emails opts = Some emails ->
  truthy (Locals.account_id (locals st)) = false ->
  trace (snd (check_existing_emails db opts winner st))
  = (trace st
     ++ map (fun e => called (account_exists (toLowerCase e))) emails)%list.
Proof.
  intros He Hf. unfold check_existing_emails. rewrite He.
  unfold bind at 1, get_locals. rewrite Hf.
  destruct (probes_started_calls emails st Hf)
    as (rs & st1 & Hrun & _ & _ & Htr).
  rewrite (bind_ok _ _ _ _ _ Hrun).
  destruct (rs !! (winner mod length rs)%nat) as [[em r]|];
    [rewrite probe_settled_trace|]; exact Htr.
Qed.

(** X14.  When the probe that settles the email check finds an account
    for its email, the check throws the error that tells the user to
    sign in with that email and link the strategy in the account
    settings, naming the lower-cased email and the strategy; the locals
    then hold that account and that email. *)
Theorem matching_email_check_throws (winner : nat) (st : State S)
    (emails : list string)
    (replies : list (string * (string + option string))) (st1 : State S)
    (email a : string) :
  Opts.emails opts = Some emails ->
  truthy (Locals.account_id (locals st)) = false ->
  probes_started db emails st = (Ok replies, st1) ->
  replies !! (winner mod length replies)%nat = Some (email, inr (Some a)) ->
  a <> "" ->
  exists st',
    check_existing_emails db opts winner st
    = (Throw (ErrEmailExists (toLowerCase email) (Opts.strategy opts)), st')
    /\ Locals.account_id (locals st') = Some a
    /\ Locals.email_address (locals st') = Some (toLowerCase email)
    /\ trace st' = trace st1
    /\ err_message (ErrEmailExists (toLowerCase email) (Opts.strategy opts))
       = "There is already an account with email address "
           +:+ toLowerCase email
           +:+ "; please sign in using that email account, then link "
           +:+ Opts.strategy opts +:+ " to it in account settings.".
Proof.
  intros He Hf Hrun Hw Ha.
  destruct (probes_started_calls emails st Hf)
    as (rs & st' & Hrun' & _ & Hloc & _).
  rewrite Hrun in Hrun'. injection Hrun' as <- <-.
  unfold check_existing_emails. rewrite He.
  unfold bind at 1, get_locals. rewrite Hf.
  rewrite (bind_ok _ _ _ _ _ Hrun), Hw.
  unfold probe_settled. unfold_monad. rewrite Hloc, Hf.
  rewrite (truthy_some a Ha). cbn [negb].
  eexists. split; [reflexivity|]. now cbn.
Qed.
End EmailCheck.

Lemma every_email_is_probed_witness :
  trace (snd (check_existing_emails MemStore.handler Example.google 0
                (initial_state Example.google None None
                   Example.store_with_email 0)))
  = (trace (initial_state Example.google None None
              Example.store_with_email 0)
     ++ map (fun e => called (account_exists (toLowerCase e)))
          ["a@x.com"])%list.
Proof.
  apply (every_email_is_probed MemStore.handler Example.google 0
           (initial_state Example.google None None
              Example.store_with_email 0) ["a@x.com"]);
    reflexivity.
Defined.

Lemma matching_email_check_throws_witness :
  exists st',
    check_existing_emails MemStore.handler Example.google 0
      (initial_state Example.google None None Example.store_with_email 0)
    = (Throw (ErrEmailExists (toLowerCase "a@x.com")
                (Opts.strategy Example.google)), st')
    /\ Locals.account_id (locals st') = Some "account-0"
    /\ Locals.email_address (locals st') = Some (toLowerCase "a@x.com")
    /\ trace st'
       = trace (answered (account_exists "a@x.com")
                  Example.store_with_email
                  (initial_state Example.google None None
                     Example.store_with_email 0))
    /\ err_message (ErrEmailExists (toLowerCase "a@x.com")
                      (Opts.strategy Example.google))
       = "There is already an account with email address "
           +:+ toLowerCase "a@x.com"
           +:+ "; please sign in using that email account, then link "
           +:+ Opts.strategy Example.google
           +:+ " to it in account settings.".
Proof.
  apply (matching_email_check_throws MemStore.handler Example.google 0
           (initial_state Example.google None None
              Example.store_with_email 0)
           ["a@x.com"] [("a@x.com", inr (Some "account-0"))]
           (answered (account_exists "a@x.com") Example.store_with_email
              (initial_state Example.google None None
                 Example.store_with_email 0))
           "a@x.com" "account-0");
    (reflexivity || discriminate).
Defined.

(** ** Identities that come with emails *)

Lemma calls_within_run {S A} ks (m : M S A) (g : Call -> bool) st r st' :
  calls_within ks m ->
  (forall c, kind_in ks c = true -> g c = false) ->
  m st = (r, st') ->
  existsb g (trace st') = existsb g (trace st).
Proof.
  intros Hm Hg E. destruct (Hm _ _ _ E) as (calls & -> & F).
  rewrite existsb_app, (existsb_none_of _ _ _ F Hg). apply orb_false_r.
Qed.

Section WithEmails.
Context (rt : Runtime) {S : Type} (db : Database S) (opts : Opts.t).
Context (winner : nat).


Lemma calls_after_account_step :
  calls_within
    [KRecordSignIn; KApiKeyAction; KIsBannedUser; KServerSettings;
     KSaveRememberMe]
    (bind (maybe_record_sign_in db opts)
       (fun _ => after_resolution rt db opts)).
Proof.
  unfold after_resolution.
  apply calls_within_bind; [|intros _].
  { eapply calls_within_more; [|apply calls_of_maybe_record_sign_in].
    intros [T []]; cbn; congruence. }
  apply calls_within_bind; [|intros _].
  { eapply calls_within_more; [|apply calls_of_maybe_provision_api_key].
    intros [T []]; cbn; congruence. }
  eapply calls_within_more; [|apply calls_of_after_api_key].
  intros [T []]; cbn; congruence.
Qed.


(** The creation step makes no call at all, and no attempt ever calls
    [create_account] or ends with the mark of a new account. *)
Lemma maybe_create_account_calls_nothing :
  calls_within [] (maybe_create_account db opts).
Proof.
  unfold maybe_create_account, create_account_of_opts, Opts.database.
  apply calls_within_bind; [|intros l].
  { apply calls_within_quiet. intros st. reflexivity. }
  destruct (truthy (Locals.account_id l)).
  { apply calls_within_quiet. intros st. reflexivity. }
  apply calls_within_bind; [|intros _].
  { destruct (Opts.emails opts); apply calls_within_quiet; intros st;
      reflexivity. }
  apply calls_within_bind; [|intros l'].
  { apply calls_within_quiet. intros st. reflexivity. }
  apply calls_within_quiet. intros st. reflexivity.
Qed.

Lemma no_attempt_creates_an_account
    (remember_me_cookie key : option string) (s : S) (seed : nat) :
  existsb is_create_account
    (trace (snd (passport_login rt db opts winner remember_me_cookie key s
                   seed))) = false.
Proof.
  destruct (login_steps rt db opts winner
              (initial_state opts remember_me_cookie key s seed))
    as [r st] eqn:E.
  destruct (passport_login_state rt db opts winner _ _ _ _ r st E)
    as [-> _].
  assert (H0 : existsb is_create_account
                 (trace (initial_state opts remember_me_cookie key s seed))
               = false) by now rewrite initial_state_eq.
  revert E H0.
  generalize (initial_state opts remember_me_cookie key s seed) as st0.
  intros st0 E H0.
  unfold login_steps, bind at 1 in E.
  destruct (check_remember_me_cookie rt db st0) as [r1 st1] eqn:E1.
  eapply (calls_within_run _ _ is_create_account) in E1;
    [|apply calls_of_check_remember_me_cookie
     |intros [T []]; cbn; congruence].
  destruct r1 as [[]|e1]; [|inversion E; subst; congruence].
  unfold bind at 1 in E.
  destruct (check_passport_exists db opts st1) as [r2 st2] eqn:E2.
  eapply (calls_within_run _ _ is_create_account) in E2;
    [|apply calls_of_check_passport_exists
     |intros [T []]; cbn; congruence].
  destruct r2 as [[]|e2]; [|inversion E; subst; congruence].
  unfold bind at 1 in E.
  destruct (check_existing_emails db opts winner st2) as [r3 st3] eqn:E3.
  eapply (calls_within_run _ _ is_create_account) in E3;
    [|apply calls_of_check_existing_emails
     |intros [T []]; cbn; congruence].
  destruct r3 as [[]|e3]; [|inversion E; subst; congruence].
  unfold bind at 1 in E.
  destruct (maybe_create_account db opts st3) as [r4 st4] eqn:E4.
  eapply (calls_within_run _ _ is_create_account) in E4;
    [|apply maybe_create_account_calls_nothing
     |intros [T []]; cbn; congruence].
  destruct r4 as [[]|e4]; [|inversion E; subst; congruence].
  eapply (calls_within_run _ _ is_create_account) in E;
    [|apply calls_after_account_step|intros [T []]; cbn; congruence].
  congruence.
Qed.
End WithEmails.


(** ** The normalisation of the login options *)

Lemma lastIndexOf_none c s :
  lastIndexOf c s = None <-> occurrences c s = 0%nat.
Proof.
  induction s as [|d s IH]; cbn [lastIndexOf occurrences]; [tauto|].
  destruct (lastIndexOf c s) as [i|].
  - split; [discriminate|]. intros H.
    assert (H0 : occurrences c s = 0%nat) by (destruct (Ascii.eqb d c); lia).
    apply IH in H0. discriminate H0.
  - destruct (Ascii.eqb d c); split; try discriminate; intros _;
      try reflexivity.
    cbn. now apply IH.
Qed.

Lemma slice_from_lastIndexOf c s i :
  lastIndexOf c s = Some i ->
  exists rest, slice_from i s = String c rest /\ occurrences c rest = 0%nat.
Proof.
  revert i. induction s as [|d s IH]; intros i; cbn [lastIndexOf];
    [discriminate|].
  destruct (lastIndexOf c s) as [j|] eqn:E.
  - intros H. inversion H; subst. cbn [slice_from]. now apply IH.
  - destruct (Ascii.eqb_spec d c) as [->|]; [|discriminate].
    intros H. inversion H; subst. exists s. split; [reflexivity|].
    now apply lastIndexOf_none.
Qed.

Lemma occurrences_cons_0 c d s :
  occurrences c (String d s) = 0%nat ->
  Ascii.eqb d c = false /\ occurrences c s = 0%nat.
Proof. cbn [occurrences]. destruct (Ascii.eqb d c); split; (lia || easy). Qed.

Lemma trim_start_keeps_absence c s :
  occurrences c s = 0%nat -> occurrences c (trim_start s) = 0%nat.
Proof.
  induction s as [|d s IH]; [easy|]. intros H. cbn [trim_start].
  destruct (is_space d); [|exact H].
  apply IH. now apply occurrences_cons_0 in H.
Qed.

Lemma trim_end_keeps_absence c s :
  occurrences c s = 0%nat -> occurrences c (trim_end s) = 0%nat.
Proof.
  induction s as [|d s IH]; [easy|]. intros H. cbn [trim_end].
  apply occurrences_cons_0 in H as [Hd Hs]. specialize (IH Hs).
  destruct (trim_end s) as [|e t].
  - destruct (is_space d); [reflexivity|]. cbn. now rewrite Hd.
  - cbn [occurrences] in *. now rewrite Hd.
Qed.

Lemma trim_keeps_absence c s :
  occurrences c s = 0%nat -> occurrences c (trim s) = 0%nat.
Proof.
  intros H. unfold trim.
  now apply trim_end_keeps_absence, trim_start_keeps_absence.
Qed.

Lemma lastIndexOf_app c first last :
  occurrences c last = 0%nat ->
  lastIndexOf c (first +:+ String c last) = Some (String.length first).
Proof.
  intros H. induction first as [|d f IH]; simpl.
  - apply lastIndexOf_none in H. rewrite H. now rewrite Ascii.eqb_refl.
  - simpl in IH. now rewrite IH.
Qed.

Lemma slice_to_app first rest :
  slice_to (String.length first) (first +:+ rest) = first.
Proof.
  induction first as [|d f IH]; simpl; [now destruct rest|].
  simpl in IH. now rewrite IH.
Qed.

Lemma slice_from_app first rest :
  slice_from (String.length first) (first +:+ rest) = rest.
Proof.
  induction first as [|d f IH]; simpl; [now destruct rest|exact IH].
Qed.

Lemma lower_char_idempotent c : lower_char (lower_char c) = lower_char c.
Proof. destruct c as [[] [] [] [] [] [] [] []]; reflexivity. Qed.

Lemma toLowerCase_idempotent s : toLowerCase (toLowerCase s) = toLowerCase s.
Proof.
  induction s as [|c s IH]; [reflexivity|]. cbn.
  now rewrite lower_char_idempotent, IH.
Qed.

(** X16.  Whatever the full name, when neither a first nor a last name
    is given the derived last name contains no space: it is what follows
    the last space of the full name. *)
Theorem derived_last_name_has_no_space (full_name : option string) :
  has_char " " (snd (derive_names None None full_name)) = false.
Proof.
  apply has_char_false. destruct full_name as [name|]; [|reflexivity].
  cbn [derive_names]. destruct (lastIndexOf " " name) as [i|] eqn:E.
  - destruct (slice_from_lastIndexOf _ _ _ E) as (rest & Hs & Hr).
    cbn [snd]. rewrite Hs. unfold trim. cbn [trim_start].
    change (is_space " ") with true. cbn iota.
    now apply trim_end_keeps_absence, trim_start_keeps_absence.
  - cbn [snd]. now apply lastIndexOf_none.
Qed.

(** X17.  A full name made of a first part, one space and a last part
    without spaces is split back into these two parts, when neither has
    white space at its ends: the first name may itself contain spaces. *)
Theorem full_name_is_split_at_its_last_space (first last : string) :
  occurrences " " last = 0%nat ->
  trim first = first ->
  trim last = last ->
  derive_names None None (Some (first +:+ " " +:+ last)) = (first, last).
Proof.
  intros Hl Hf Ht. cbn [derive_names].
  change (first +:+ " " +:+ last) with (first +:+ String " " last).
  rewrite (lastIndexOf_app _ _ _ Hl), slice_to_app, slice_from_app, Hf.
  f_equal. unfold trim in *. cbn [trim_start].
  change (is_space " ") with true. cbn iota. exact Ht.
Qed.

(** X18.  The emails of the options, once normalised, are in lower case
    (lower-casing them again changes nothing, so the probes of the email
    check ask for them as they are), and each comes from a string of the
    list that the validity test accepted; a missing list stays
    missing. *)
Theorem normalized_emails_are_lower_case
    (is_valid_email_address : string -> bool)
    (emails : option (list (option string))) :
  match normalize_emails is_valid_email_address emails with
  | Some l =>
      Forall (fun e =>
                toLowerCase e = e
                /\ exists x, Some x ∈ default [] emails
                             /\ is_valid_email_address x = true
                             /\ e = toLowerCase x) l
  | None => emails = None
  end.
Proof.
  destruct emails as [es|]; [|reflexivity]. cbn [normalize_emails default].
  apply Forall_forall. intros e He.
  apply list_elem_of_omap in He as (x & Hx & He).
  destruct x as [x|]; [|discriminate].
  destruct (is_valid_email_address x) eqn:Hv; [|discriminate].
  inversion He; subst. split; [apply toLowerCase_idempotent|].
  now exists x.
Qed.

Lemma full_name_is_split_at_its_last_space_witness :
  derive_names None None (Some ("Mary Ann" +:+ " " +:+ "Smith"))
  = ("Mary Ann", "Smith").
Proof.
  apply (full_name_is_split_at_its_last_space "Mary Ann" "Smith");
    reflexivity.
Defined.

(** ** [is_password_correct] *)

Section PasswordCheck.
Context (rt : Runtime) {S : Type} (accounts : Accounts S).
Context (verify : string -> option string -> bool).

(** X19.  [is_password_correct] sets a password only for an account
    that has none, only when the caller allowed an empty password and
    gave no hash, a non-empty password and the account id; what it
    stores is a fresh hash of the given password, for that account, and
    the remember-me records are kept. *)
Theorem password_is_set_only_where_there_is_none
    (opts : IsPasswordCorrect) (s : S) (seed : nat)
    (a h : string) (invalidate : bool) :
  (a, h, invalidate)
  ∈ password_changes (snd (is_password_correct rt accounts verify opts s
                             seed)) ->
  pc_allow_empty_password opts = true
  /\ pc_password_hash opts = None
  /\ pc_account_id opts = Some a
  /\ a <> ""
  /\ pc_password opts <> ""
  /\ invalidate = false
  /\ password_hash rt seed (pc_password opts) = Ok h
  /\ exists s1,
       accounts _ (get_account (Some a) (pc_email_address opts)
                     ["password_hash"]) s
       = (inr {| account_password_hash := None |}, s1)
       \/ accounts _ (get_account (Some a) (pc_email_address opts)
                        ["password_hash"]) s
          = (inr {| account_password_hash := Some "" |}, s1).
Proof.
  unfold is_password_correct, password_changes.
  destruct (pc_password_hash opts) as [h0|];
    [cbn; intros H; now apply elem_of_nil in H|].
  destruct (pc_account_id opts) as [b|] eqn:Hb.
  - destruct (accounts _ (get_account (Some b) (pc_email_address opts)
                            ["password_hash"]) s)
      as [[err|[stored]] s1] eqn:Hget;
      [cbn; intros H; now apply elem_of_nil in H|].
    destruct (pc_allow_empty_password opts);
      [|cbn; intros H; now apply elem_of_nil in H].
    cbn [andb account_password_hash].
    destruct (truthy stored) eqn:Hst;
      [cbn; intros H; now apply elem_of_nil in H|].
    cbn [negb].
    destruct (String.eqb_spec (pc_password opts) "") as [Hp|Hp];
      [cbn; intros H; now apply elem_of_nil in H|].
    cbn [negb].
    destruct (truthy (Some b)) eqn:Htb;
      [|cbn; intros H; now apply elem_of_nil in H].
    destruct (password_hash rt seed (pc_password opts)) as [h1|x] eqn:Hh;
      [|cbn; intros H; now apply elem_of_nil in H].
    assert (Hb0 : b <> "").
    { intros ->. discriminate Htb. }
    assert (Hstored : stored = None \/ stored = Some "").
    { destruct stored as [v|]; [|now left]. right. f_equal.
      cbn in Hst. now destruct (String.eqb_spec v ""). }
    destruct (accounts _ (change_password b h1 false) s1)
      as [[err|[]] s2]; cbn; intros H;
      apply list_elem_of_singleton in H; inversion H; subst;
      (repeat split; try assumption; try reflexivity);
      exists s1; destruct Hstored as [->| ->]; auto.
  - destruct (pc_email_address opts) as [em|];
      [|cbn; intros H; now apply elem_of_nil in H].
    destruct (accounts _ (get_account None (Some em) ["password_hash"]) s)
      as [[err|[stored]] s1];
      [cbn; intros H; now apply elem_of_nil in H|].
    destruct (pc_allow_empty_password opts && negb (truthy _))%bool;
      [|cbn; intros H; now apply elem_of_nil in H].
    destruct (negb (String.eqb (pc_password opts) ""));
      cbn; intros H; now apply elem_of_nil in H.
Qed.

(** X20.  Unless an empty password is allowed, [is_password_correct]
    only reads: it calls back either with an error and no verdict, or
    with no error and the library's check of the password against the
    hash that was passed or, when none was, the hash stored for the
    account; and it consults the database only when no hash was
    passed. *)
Theorem password_check_without_empty_password
    (opts : IsPasswordCorrect) (s : S) (seed : nat) :
  pc_allow_empty_password opts = false ->
  password_changes (snd (is_password_correct rt accounts verify opts s
                           seed)) = []
  /\ (pc_password_hash opts <> None ->
      is_password_correct rt accounts verify opts s seed
      = (cb None (Some (verify (pc_password opts) (pc_password_hash opts))),
         s, []))
  /\ ((exists m,
         fst (fst (is_password_correct rt accounts verify opts s seed))
         = cb (Some (CbMessage m)) None)
      \/ (exists stored,
            fst (fst (is_password_correct rt accounts verify opts s seed))
            = cb None (Some (verify (pc_password opts) stored)))).
Proof.
  intros Hallow. unfold is_password_correct, password_changes.
  rewrite Hallow. cbn [andb].
  destruct (pc_password_hash opts) as [h0|].
  - cbn. repeat split. right. now eexists.
  - destruct (pc_account_id opts) as [b|], (pc_email_address opts) as [em|];
      try (destruct (accounts _ _ s) as [[err|account] s1]); cbn;
      (repeat split; try congruence);
      try (left; now eexists); right; now eexists.
Qed.
End PasswordCheck.

Lemma password_is_set_only_where_there_is_none_witness :
  pc_allow_empty_password first_password = true
  /\ pc_password_hash first_password = None
  /\ pc_account_id first_password = Some "acct-A"
  /\ "acct-A" <> ""
  /\ pc_password first_password <> ""
  /\ false = false
  /\ password_hash Example.runtime 3 (pc_password first_password)
     = Ok (default "" (match password_hash Example.runtime 3 "pw" with
                       | Ok h => Some h
                       | Throw _ => None
                       end))
  /\ exists s1,
       stored_passwords _
         (get_account (Some "acct-A") (pc_email_address first_password)
            ["password_hash"]) ∅
       = (inr {| account_password_hash := None |}, s1)
       \/ stored_passwords _
            (get_account (Some "acct-A") (pc_email_address first_password)
               ["password_hash"]) ∅
          = (inr {| account_password_hash := Some "" |}, s1).
Proof.
  apply (password_is_set_only_where_there_is_none Example.runtime
           stored_passwords plain_verify first_password ∅ 3 "acct-A" _
           false).
  vm_compute. apply list_elem_of_here.
Defined.

Lemma password_check_without_empty_password_witness :
  password_changes
    (snd (is_password_correct Example.runtime stored_passwords plain_verify
            password_to_check {["acct-A" := "hash of pw"]} 3)) = []
  /\ (pc_password_hash password_to_check <> None ->
      is_password_correct Example.runtime stored_passwords plain_verify
        password_to_check {["acct-A" := "hash of pw"]} 3
      = (cb None
           (Some (plain_verify (pc_password password_to_check)
                    (pc_password_hash password_to_check))),
         {["acct-A" := "hash of pw"]}, []))
  /\ ((exists m,
         fst (fst (is_password_correct Example.runtime stored_passwords
                     plain_verify password_to_check
                     {["acct-A" := "hash of pw"]} 3))
         = cb (Some (CbMessage m)) None)
      \/ (exists stored,
            fst (fst (is_password_correct Example.runtime stored_passwords
                        plain_verify password_to_check
                        {["acct-A" := "hash of pw"]} 3))
            = cb None
                (Some (plain_verify (pc_password password_to_check)
                         stored)))).
Proof.
  apply (password_check_without_empty_password Example.runtime
           stored_passwords plain_verify password_to_check
           {["acct-A" := "hash of pw"]} 3).
  reflexivity.
Defined.

(** ** The strategies listed by [init] *)

(** X21.  Once the site configuration names an authentication URL,
    [init] lists the four strategies after "email", in alphabetical
    order, whatever the database holds for each of them: a strategy
    without settings is listed like the others. *)
Theorem init_lists_every_strategy
    (settings : string -> string + option Conf) (c : Conf) (url : string) :
  settings "site_conf" = inr (Some c) ->
  conf_auth c = Some url ->
  init_strategies settings
  = (Ok tt, ["email"; "facebook"; "github"; "google"; "twitter"]).
Proof.
  intros Hs Hc. unfold init_strategies. rewrite Hs, Hc. reflexivity.
Qed.

Lemma init_lists_every_strategy_witness :
  init_strategies
    (fun strategy =>
       if String.eqb strategy "site_conf"
       then inr (Some {| conf_auth := Some "https://hub.example/auth" |})
       else inr None)
  = (Ok tt, ["email"; "facebook"; "github"; "google"; "twitter"]).
Proof.
  apply (init_lists_every_strategy _
           {| conf_auth := Some "https://hub.example/auth" |}
           "https://hub.example/auth");
    reflexivity.
Defined.
